(** * KaggleApp moderation scorer: a model of [Scripts/algo.py]

    The script is a line-oriented server: it reads one JSON request per
    line, derives six numeric features per comment, asks every per-rule
    classifier for a probability, keeps the largest one and prints one
    JSON response per request.

    Conventions of the model.
    - A Python [str] is a [string]; each character stands for one code
      point below 256, so [String.length] is Python's [len].
    - A Python [int] is a [Z]; a finite Python [float] is the rational
      it denotes, a [Q] (rounding to binary64 is not represented).
    - Python values that travel through JSON are [pyval]s; a [dict] is an
      association list in insertion order.
    - Code that can raise returns [result]; the statements inside the
      [try] block additionally record the library work they trigger.
    - The libraries the script calls (json, pandas on irregular payloads,
      the pickled vectorizers and classifiers, scipy) are the fields of
      the class [Runtime]. *)

From Stdlib Require Import String Ascii List Bool Arith NArith ZArith QArith Lia Lqa.
From Stdlib Require Import DecimalString.
Import ListNotations.

Local Close Scope Q_scope.
Local Open Scope string_scope.
Local Open Scope list_scope.

(* ------------------------------------------------------------------ *)
(** ** Characters and strings, as Python sees them *)

Definition code (c : ascii) : N := N_of_ascii c.

Definition between (lo hi n : N) : bool := (N.leb lo n && N.leb n hi)%bool.

(** [str.isspace] on one character (code points below 256). *)
Definition isspace (c : ascii) : bool :=
  (between 9 13 (code c) || between 28 32 (code c)
   || N.eqb (code c) 133 || N.eqb (code c) 160)%bool.

(** [c.isupper()] on one character (code points below 256). *)
Definition isupper (c : ascii) : bool :=
  (between 65 90 (code c) || between 192 214 (code c)
   || between 216 222 (code c))%bool.

Definition lower_char (c : ascii) : ascii :=
  if isupper c then ascii_of_N (code c + 32) else c.

(** [s.lower()] *)
Fixpoint lower (s : string) : string :=
  match s with
  | EmptyString => EmptyString
  | String c s' => String (lower_char c) (lower s')
  end.

Fixpoint lstrip (s : string) : string :=
  match s with
  | EmptyString => EmptyString
  | String c s' => if isspace c then lstrip s' else s
  end.

Fixpoint rstrip (s : string) : string :=
  match s with
  | EmptyString => EmptyString
  | String c s' =>
      match rstrip s' with
      | EmptyString => if isspace c then EmptyString else String c EmptyString
      | r => String c r
      end
  end.

(** [s.strip()] *)
Definition strip (s : string) : string := rstrip (lstrip s).

(** [s.split()]: the maximal runs of non-whitespace characters.
    [cur] is the token being read. *)
Fixpoint split_from (s cur : string) : list string :=
  match s with
  | EmptyString => match cur with EmptyString => [] | _ => [cur] end
  | String c s' =>
      if isspace c
      then match cur with
           | EmptyString => split_from s' EmptyString
           | _ => cur :: split_from s' EmptyString
           end
      else split_from s' (cur ++ String c EmptyString)
  end.

Definition split (s : string) : list string := split_from s EmptyString.

(** Number of characters of [s] satisfying [p]:
    [sum(p(c) for c in s)]. *)
Fixpoint count_if (p : ascii -> bool) (s : string) : Z :=
  match s with
  | EmptyString => 0%Z
  | String c s' => ((if p c then 1 else 0) + count_if p s')%Z
  end.

Definition len (s : string) : Z := Z.of_nat (String.length s).

(* ------------------------------------------------------------------ *)
(** ** The regular expressions the script uses

    [re] semantics for the operators that occur in the patterns of
    [add_numeric_features]: literal characters, one-character classes,
    the greedy optional [?] and concatenation.  Matching is
    case-sensitive: pandas' [str.contains] and [str.count] are called
    without [case=False] and without flags. *)

Inductive regex : Type :=
| Lit (c : ascii)
| Class (cs : list ascii)
| Opt (r : regex)
| Seq (r1 r2 : regex).

(** Backtracking matcher: [rmatch r s k] holds when a prefix of [s]
    matches [r] and the continuation [k] accepts what follows it. *)
Fixpoint rmatch (r : regex) (s : string) (k : string -> bool) : bool :=
  match r with
  | Lit c =>
      match s with
      | String a s' => if Ascii.eqb a c then k s' else false
      | EmptyString => false
      end
  | Class cs =>
      match s with
      | String a s' => if existsb (Ascii.eqb a) cs then k s' else false
      | EmptyString => false
      end
  | Opt r' => (rmatch r' s k || k s)%bool
  | Seq r1 r2 => rmatch r1 s (fun s' => rmatch r2 s' k)
  end.

(** [re.search(r, s) is not None]: a match starting at some position. *)
Fixpoint re_search (r : regex) (s : string) : bool :=
  (rmatch r s (fun _ => true)
   || match s with
      | EmptyString => false
      | String _ s' => re_search r s'
      end)%bool.

Fixpoint lits (s : string) : regex -> regex :=
  match s with
  | EmptyString => fun k => k
  | String c s' => fun k => Seq (Lit c) (lits s' k)
  end.

(** The pattern [r"http[s]?://"]. *)
Definition url_pattern : regex :=
  lits "http" (Seq (Opt (Class ["s"%char]))
                   (Seq (Lit ":"%char) (Seq (Lit "/"%char) (Lit "/"%char)))).

(** [str.count] with a pattern that is one literal character
    (["!"] and [r"\?"]): the number of occurrences of that character. *)
Definition count_char (c : ascii) (s : string) : Z := count_if (Ascii.eqb c) s.

(* ------------------------------------------------------------------ *)
(** ** Exceptions *)

(** The exceptions the [try] block can meet.  Those raised inside a
    library carry the class name and the text [str(e)] the library
    gives them. *)
Inductive exn : Type :=
| LibraryError (cls msg : string)
| AttributeError (tyname attr : string)
| ZeroDivisionError.

(** [str(e)] *)
Definition str_exn (e : exn) : string :=
  match e with
  | LibraryError _ msg => msg
  | AttributeError ty attr =>
      "'" ++ ty ++ "' object has no attribute '" ++ attr ++ "'"
  | ZeroDivisionError => "division by zero"
  end.

Definition result (A : Type) : Type := (exn + A)%type.

(** Python's [a / b] on integers. *)
Definition truediv (a b : Z) : result Q :=
  if (b =? 0)%Z then inl ZeroDivisionError
  else inr (inject_Z a / inject_Z b)%Q.

(* ------------------------------------------------------------------ *)
(** ** Numeric features *)

(** One row of the columns listed in [NUM_FEATURES]. *)
Record NumericFeatureVector : Type := {
  body_length : Z;
  word_count : Z;
  has_url : Z;
  exclamations : Z;
  questions : Z;
  uppercase_ratio : Q
}.

(** A cell of the [body] column: a string, or [None]. *)
Definition cell : Type := option string.

(** [fillna("")] on one cell. *)
Definition fillna (x : cell) : string :=
  match x with Some s => s | None => EmptyString end.

(** [.astype(int)] on a boolean. *)
Definition int_of_bool (b : bool) : Z := if b then 1%Z else 0%Z.

(** Line 51: [body.str.contains(r"http[s]?://", na=False).astype(int)]
    on one body. *)
Definition url_flag (body : string) : Z :=
  int_of_bool (re_search url_pattern body).

(** The lambda of line 54: [sum(c.isupper() for c in x)/max(len(x),1)]. *)
Definition upper_ratio (x : string) : result Q :=
  truediv (count_if isupper x) (Z.max (len x) 1).

(** The body of [add_numeric_features] on one row. *)
Definition numeric_features (x : cell) : result NumericFeatureVector :=
  let body := fillna x in
  match upper_ratio body with
  | inl e => inl e
  | inr ratio =>
      inr {| body_length := len body;
             word_count := Z.of_nat (List.length (split body));
             has_url := url_flag body;
             exclamations := count_char "!"%char body;
             questions := count_char "?"%char body;
             uppercase_ratio := ratio |}
  end.

(** [add_numeric_features(df)]: every row of the frame, in order. *)
Fixpoint add_numeric_features (df : list cell)
  : result (list (cell * NumericFeatureVector)) :=
  match df with
  | [] => inr []
  | x :: rest =>
      match numeric_features x with
      | inl e => inl e
      | inr fv =>
          match add_numeric_features rest with
          | inl e => inl e
          | inr rows => inr ((x, fv) :: rows)
          end
      end
  end.

(** [clean_text(x)] on a cell: [str(x).lower() if x else ""]. *)
Definition clean_text (x : cell) : string :=
  match x with
  | Some (String c s) => lower (String c s)
  | _ => EmptyString
  end.

(* ------------------------------------------------------------------ *)
(** ** Python values *)

(** The values [json.loads] produces and [json.dumps] consumes. *)
#[warnings="-register-all"]
Inductive pyval : Type :=
| PyNone
| PyBool (b : bool)
| PyInt (z : Z)
| PyFloat (q : Q)
| PyStr (s : string)
| PyList (items : list pyval)
| PyDict (kvs : list (string * pyval)).

(** [bool(v)], as tested by [if not comments]. *)
Definition truthy (v : pyval) : bool :=
  match v with
  | PyNone => false
  | PyBool b => b
  | PyInt z => negb (z =? 0)%Z
  | PyFloat q => negb (Qeq_bool q 0)
  | PyStr s => negb (String.eqb s EmptyString)
  | PyList items => match items with [] => false | _ => true end
  | PyDict kvs => match kvs with [] => false | _ => true end
  end.

(** [type(v).__name__] *)
Definition type_name (v : pyval) : string :=
  match v with
  | PyNone => "NoneType"
  | PyBool _ => "bool"
  | PyInt _ => "int"
  | PyFloat _ => "float"
  | PyStr _ => "str"
  | PyList _ => "list"
  | PyDict _ => "dict"
  end.

(** Number of turns of [for _ in v], when [v] is iterable. *)
Definition iter_len (v : pyval) : option nat :=
  match v with
  | PyStr s => Some (String.length s)
  | PyList items => Some (List.length items)
  | PyDict kvs => Some (List.length kvs)
  | _ => None
  end.

Fixpoint lookup (key : string) (kvs : list (string * pyval)) : option pyval :=
  match kvs with
  | [] => None
  | (k, v) :: rest => if String.eqb k key then Some v else lookup key rest
  end.

(** [data.get(key, default)]; only a [dict] has the method. *)
Definition py_get (data : pyval) (key : string) (default : pyval)
  : result pyval :=
  match data with
  | PyDict kvs =>
      inr (match lookup key kvs with Some v => v | None => default end)
  | _ => inl (AttributeError (type_name data) "get")
  end.

(** A batch in the documented request shape: a list whose items are
    strings or [null]. *)
Definition as_cell (v : pyval) : option cell :=
  match v with
  | PyStr s => Some (Some s)
  | PyNone => Some None
  | _ => None
  end.

Fixpoint as_cells (items : list pyval) : option (list cell) :=
  match items with
  | [] => Some []
  | v :: rest =>
      match as_cell v, as_cells rest with
      | Some c, Some cs => Some (c :: cs)
      | _, _ => None
      end
  end.

Definition regular_batch (comments : pyval) : option (list cell) :=
  match comments with
  | PyList items => as_cells items
  | _ => None
  end.

(** [violated_rule] as a Python value. *)
Definition py_of_rule (r : option string) : pyval :=
  match r with Some name => PyStr name | None => PyNone end.

(* ------------------------------------------------------------------ *)
(** ** The libraries behind the script *)

Class Runtime : Type := {
  (** scipy sparse matrices *)
  matrix : Type;
  (** [json.loads] *)
  json_loads : string -> result pyval;
  (** [repr] of a float, as [json.dumps] prints it *)
  float_repr : Q -> string;
  (** [body_tfidf.transform], [rule_tfidf.transform] *)
  body_tfidf : list string -> result matrix;
  rule_tfidf : list string -> result matrix;
  (** [models.items()] in insertion order; a model is its
      [predict_proba(X)[:,1][0]] *)
  models : list (string * (matrix -> result Q));
  (** [csr_matrix(values, dtype="float32")] *)
  csr_matrix : list (list Q) -> matrix;
  (** [X[i]] *)
  getrow : matrix -> nat -> result matrix;
  (** [hstack(blocks).tocsr()] *)
  hstack : list matrix -> result matrix;
  (** pandas on a payload that is not a list of strings and nulls:
      lines 76-80 up to the body transform, giving [len(df)], the
      cleaned texts and [X_num], or raising *)
  pandas_irregular : pyval -> result (nat * list string * matrix)
}.

(* ------------------------------------------------------------------ *)
(** ** The [try] block: fallible steps that leave a trace of work *)

Inductive work : Type :=
| FeatureExtraction (comments : pyval)
| BodyTransform (texts : list string)
| NumericMatrix
| RuleTransform (names : list string)
| RowAccess (row : nat)
| Stack
| PredictProba (rule_name : string) (row : nat).

Definition M (A : Type) : Type := (list work * result A)%type.

Definition ret {A} (a : A) : M A := ([], inr a).

Definition bind {A B} (m : M A) (f : A -> M B) : M B :=
  match m with
  | (w, inl e) => (w, inl e)
  | (w, inr a) => let (w', r) := f a in (w ++ w', r)
  end.

(** A library call. *)
Definition call {A} (w : work) (r : result A) : M A := ([w], r).

Definition yields {A} (m : M A) (a : A) : Prop := snd m = inr a.

Declare Scope try_scope.
Delimit Scope try_scope with try.
Notation "x <- m ;; k" := (bind m (fun x => k))
  (at level 61, m at next level, right associativity) : try_scope.
Notation "' pat <- m ;; k" :=
  (bind m (fun x => match x with pat => k end))
  (at level 61, pat pattern, m at next level, right associativity) : try_scope.

(** [prob > max_prob] *)
Definition Qgtb (p q : Q) : bool := negb (Qle_bool p q).

Section Server.
Context {R : Runtime}.
Local Open Scope try_scope.

(** Lines 90-93: the probability one rule gives comment [i]. *)
Definition rule_probability (X_body X_num : matrix) (i : nat)
  (rule_name : string) (model : matrix -> result Q) : M Q :=
  X_rule <- call (RuleTransform [rule_name]) (rule_tfidf [rule_name]) ;;
  xb <- call (RowAccess i) (getrow X_body i) ;;
  xn <- call (RowAccess i) (getrow X_num i) ;;
  X_final <- call Stack (hstack [xb; X_rule; xn]) ;;
  call (PredictProba rule_name i) (model X_final).

(** Lines 88-96: the loop over [models.items()], from the running
    [max_prob] and [violated_rule]. *)
Fixpoint score_rules (X_body X_num : matrix) (i : nat)
  (ms : list (string * (matrix -> result Q)))
  (max_prob : Q) (violated_rule : option string) : M (Q * option string) :=
  match ms with
  | [] => ret (max_prob, violated_rule)
  | (rule_name, model) :: rest =>
      prob <- rule_probability X_body X_num i rule_name model ;;
      if Qgtb prob max_prob
      then score_rules X_body X_num i rest prob (Some rule_name)
      else score_rules X_body X_num i rest max_prob violated_rule
  end.

(** Lines 98-101. *)
Definition status_of (max_prob : Q) : string :=
  if Qle_bool (1 # 2) max_prob then "Violates rule" else "Safe".

(** Lines 103-107. *)
Definition result_entry (max_prob : Q) (violated_rule : option string)
  : pyval :=
  let status := status_of max_prob in
  PyDict [("probability", PyFloat max_prob);
          ("status", PyStr status);
          ("rule", if negb (String.eqb status "Safe")
                   then py_of_rule violated_rule
                   else PyStr "")].

(** Lines 85-107: one turn of the loop over the rows. *)
Definition score_comment (X_body X_num : matrix) (i : nat) : M pyval :=
  ' (max_prob, violated_rule) <-
      score_rules X_body X_num i models 0 None ;;
  ret (result_entry max_prob violated_rule).

(** Lines 83-107: [for i in range(len(df))], as rows [i], [i+1], ...
    with [n] rows to go. *)
Fixpoint score_rows (X_body X_num : matrix) (i n : nat) : M (list pyval) :=
  match n with
  | O => ret []
  | S n' =>
      entry <- score_comment X_body X_num i ;;
      entries <- score_rows X_body X_num (S i) n' ;;
      ret (entry :: entries)
  end.

(** [df[NUM_FEATURES].values], one row. *)
Definition num_values (fv : NumericFeatureVector) : list Q :=
  [inject_Z (body_length fv); inject_Z (word_count fv);
   inject_Z (has_url fv); inject_Z (exclamations fv);
   inject_Z (questions fv); uppercase_ratio fv].

(** Lines 76-80: the frame, its body matrix and its numeric matrix. *)
Definition build_frame (comments : pyval) : M (nat * matrix * matrix) :=
  match regular_batch comments with
  | Some df =>
      rows <- call (FeatureExtraction comments) (add_numeric_features df) ;;
      let texts := map (fun row => clean_text (fst row)) rows in
      X_body <- call (BodyTransform texts) (body_tfidf texts) ;;
      X_num <- call NumericMatrix
                 (inr (csr_matrix (map (fun row => num_values (snd row)) rows))) ;;
      ret (List.length rows, X_body, X_num)
  | None =>
      ' (n, texts, X_num) <-
          call (FeatureExtraction comments) (pandas_irregular comments) ;;
      X_body <- call (BodyTransform texts) (body_tfidf texts) ;;
      ret (n, X_body, X_num)
  end.

(** Lines 76-107: [results] for a non-empty payload. *)
Definition score_batch (comments : pyval) : M (list pyval) :=
  ' (n, X_body, X_num) <- build_frame comments ;;
  score_rows X_body X_num 0 n.

(* ------------------------------------------------------------------ *)
(** ** The request loop *)

(** The local variable [comments] of [main]: unbound until a request
    has been decoded, then whatever the last decoded request bound it
    to.  It is the only local that one turn of the loop reads before
    writing. *)
Definition locals : Type := option pyval.

(** An exception that leaves [main]. *)
Inductive fatal : Type :=
| UnboundLocalError (var : string)
| NotIterable (tyname : string).

Inductive outcome : Type :=
| Skipped
| Emitted (response : pyval)
| Crashed (f : fatal).

(** Line 72. *)
Definition empty_response : pyval :=
  PyDict [("comments", PyList []); ("predictions", PyList [])].

(** Lines 109-112. *)
Definition success_response (comments : pyval) (results : list pyval)
  : pyval :=
  PyDict [("comments", comments); ("results", PyList results)].

(** One element of the comprehension of line 117. *)
Definition error_entry (e : exn) : pyval :=
  PyDict [("probability", PyFloat 0); ("status", PyStr "Error");
          ("rule", PyStr ""); ("error", PyStr (str_exn e))].

(** Lines 115-118.  ['comments' in locals()] guards the first use of
    [comments]; the comprehension reads the variable itself. *)
Definition except_handler (st : locals) (e : exn) : outcome :=
  let shown := match st with Some c => c | None => PyList [] end in
  match st with
  | None => Crashed (UnboundLocalError "comments")
  | Some c =>
      match iter_len c with
      | None => Crashed (NotIterable (type_name c))
      | Some n =>
          Emitted (PyDict [("comments", shown);
                           ("results", PyList (repeat (error_entry e) n))])
      end
  end.

(** Lines 69-70. *)
Definition decode_request (line : string) : result pyval :=
  match json_loads line with
  | inl e => inl e
  | inr data => py_get data "comments" (PyList [])
  end.

(** Lines 64-118: one turn of [for line in sys.stdin].  Gives what was
    printed, the binding of [comments] afterwards and the library work
    done. *)
Definition process_line (st : locals) (raw : string)
  : outcome * locals * list work :=
  let line := strip raw in
  match line with
  | EmptyString => (Skipped, st, [])
  | _ =>
      match decode_request line with
      | inl e => (except_handler st e, st, [])
      | inr comments =>
          if negb (truthy comments)
          then (Emitted empty_response, Some comments, [])
          else
            match score_batch comments with
            | (w, inr results) =>
                (Emitted (success_response comments results),
                 Some comments, w)
            | (w, inl e) =>
                (except_handler (Some comments) e, Some comments, w)
            end
      end
  end.

(** What a session leaves behind. *)
Record session : Type := {
  responses : list pyval;
  exit : option fatal
}.

(** Lines 63-118: the loop over the lines of standard input. *)
Fixpoint serve (st : locals) (lines : list string) : session :=
  match lines with
  | [] => {| responses := []; exit := None |}
  | raw :: rest =>
      match process_line st raw with
      | (Skipped, st', _) => serve st' rest
      | (Emitted r, st', _) =>
          let s := serve st' rest in
          {| responses := r :: responses s; exit := exit s |}
      | (Crashed f, _, _) => {| responses := []; exit := Some f |}
      end
  end.

End Server.

(* ------------------------------------------------------------------ *)
(** ** [json.dumps] *)

Local Open Scope string_scope.

Definition dquote : ascii := "034"%char.
Definition backslash : ascii := "092"%char.

Definition hex_digit (n : N) : ascii :=
  if N.ltb n 10 then ascii_of_N (48 + n) else ascii_of_N (87 + n).

(** One character of a string literal, with [ensure_ascii=True]. *)
Definition escape_char (c : ascii) : string :=
  let n := code c in
  if Ascii.eqb c dquote then String backslash (String dquote "")
  else if Ascii.eqb c backslash then String backslash (String backslash "")
  else if N.eqb n 10 then String backslash "n"
  else if N.eqb n 13 then String backslash "r"
  else if N.eqb n 9 then String backslash "t"
  else if N.eqb n 8 then String backslash "b"
  else if N.eqb n 12 then String backslash "f"
  else if (N.ltb n 32 || N.ltb 126 n)%bool
  then String backslash
         ("u00" ++ String (hex_digit (n / 16)) (String (hex_digit (n mod 16)) ""))
  else String c "".

Fixpoint escape (s : string) : string :=
  match s with
  | EmptyString => EmptyString
  | String c s' => escape_char c ++ escape s'
  end.

Definition quoted (s : string) : string :=
  String dquote (escape s ++ String dquote "").

Fixpoint join (sep : string) (parts : list string) : string :=
  match parts with
  | [] => EmptyString
  | [p] => p
  | p :: rest => p ++ sep ++ join sep rest
  end.

Definition decimal (z : Z) : string :=
  if (z <? 0)%Z
  then "-" ++ NilZero.string_of_uint (N.to_uint (Z.abs_N z))
  else NilZero.string_of_uint (N.to_uint (Z.abs_N z)).

Section Dumps.
Context {R : Runtime}.

(** [json.dumps(v)] with the default separators. *)
Fixpoint json_dumps (v : pyval) : string :=
  match v with
  | PyNone => "null"
  | PyBool true => "true"
  | PyBool false => "false"
  | PyInt z => decimal z
  | PyFloat q => float_repr q
  | PyStr s => quoted s
  | PyList items => "[" ++ join ", " (map json_dumps items) ++ "]"
  | PyDict kvs =>
      "{" ++ join ", "
               (map (fun kv => quoted (fst kv) ++ ": " ++ json_dumps (snd kv))
                    kvs)
          ++ "}"
  end.

(** [main()]: the banner, then one printed line per response. *)
Definition main (lines : list string) : list string * option fatal :=
  let s := serve None lines in
  ("Python server ready." :: map json_dumps (responses s), exit s).

End Dumps.

(* ------------------------------------------------------------------ *)
(** ** A reference JSON decoder

    [json.loads] is a field of [Runtime]; the theorems hold for any
    decoder.  To run the server on concrete lines this section gives a
    decoder for RFC 8259 documents over the characters of this model,
    reporting failures with the message and position of CPython's
    scanner.  It does not accept the literals [NaN] and [Infinity], nor
    escapes of code points from 256 on. *)

Definition perror : Type := (string * nat)%type.
Definition parsed (A : Type) : Type := (perror + (A * string * nat))%type.

Definition is_json_ws (c : ascii) : bool :=
  (N.eqb (code c) 32 || N.eqb (code c) 9
   || N.eqb (code c) 10 || N.eqb (code c) 13)%bool.

Fixpoint skip_ws (s : string) (pos : nat) : string * nat :=
  match s with
  | String c s' => if is_json_ws c then skip_ws s' (S pos) else (s, pos)
  | EmptyString => (s, pos)
  end.

Definition is_digit (c : ascii) : bool := between 48 57 (code c).

Definition hex_value (c : ascii) : option N :=
  let n := code c in
  if between 48 57 n then Some (n - 48)%N
  else if between 97 102 n then Some (n - 87)%N
  else if between 65 70 n then Some (n - 55)%N
  else None.

Definition hex4 (a b c d : ascii) : option N :=
  match hex_value a, hex_value b, hex_value c, hex_value d with
  | Some x, Some y, Some z, Some w => Some (((x * 16 + y) * 16 + z) * 16 + w)%N
  | _, _, _, _ => None
  end.

Definition unescape (c : ascii) : option ascii :=
  if Ascii.eqb c dquote then Some dquote
  else if Ascii.eqb c backslash then Some backslash
  else if Ascii.eqb c "/" then Some "/"%char
  else if Ascii.eqb c "b" then Some "008"%char
  else if Ascii.eqb c "f" then Some "012"%char
  else if Ascii.eqb c "n" then Some "010"%char
  else if Ascii.eqb c "r" then Some "013"%char
  else if Ascii.eqb c "t" then Some "009"%char
  else None.

(** The characters of a string literal after its opening quote, which
    stands at [begin]. *)
Fixpoint scan_string (s : string) (pos begin : nat) (acc : string)
  : parsed string :=
  match s with
  | EmptyString => inl ("Unterminated string starting at", begin)
  | String c s' =>
      if Ascii.eqb c dquote then inr (acc, s', S pos)
      else if Ascii.eqb c backslash then
        match s' with
        | EmptyString => inl ("Unterminated string starting at", begin)
        | String e s'' =>
            if Ascii.eqb e "u" then
              match s'' with
              | String h1 (String h2 (String h3 (String h4 rest))) =>
                  match hex4 h1 h2 h3 h4 with
                  | Some n =>
                      if N.ltb n 256
                      then scan_string rest (6 + pos) begin
                             (acc ++ String (ascii_of_N n) "")
                      else inl ("Invalid \uXXXX escape", S pos)
                  | None => inl ("Invalid \uXXXX escape", S pos)
                  end
              | _ => inl ("Invalid \uXXXX escape", S pos)
              end
            else
              match unescape e with
              | Some ch => scan_string s'' (2 + pos) begin (acc ++ String ch "")
              | None => inl ("Invalid \escape", pos)
              end
        end
      else if N.ltb (code c) 32 then inl ("Invalid control character at", pos)
      else scan_string s' (S pos) begin (acc ++ String c "")
  end.

(** Leading decimal digits, most significant first. *)
Fixpoint digits (s : string) : list Z * string :=
  match s with
  | String c s' =>
      if is_digit c
      then let (ds, rest) := digits s' in (Z.of_N (code c - 48) :: ds, rest)
      else ([], s)
  | EmptyString => ([], s)
  end.

Definition number_of (ds : list Z) : Z :=
  fold_left (fun acc d => (10 * acc + d)%Z) ds 0%Z.

(** [m * 10^e] *)
Definition scale10 (m e : Z) : Q :=
  if (0 <=? e)%Z then inject_Z (m * 10 ^ e)
  else Qmake m (Z.to_pos (10 ^ (- e))).

(** A number literal at the head of [s]: an optional minus sign, [0]
    or a run of digits that does not start with [0], an optional
    fraction (a dot and at least one digit), an optional exponent ([e]
    or [E], an optional sign, at least one digit). *)
Definition scan_number (s : string) (pos : nat)
  : option (pyval * string * nat) :=
  let (neg, s1) :=
    match s with
    | String c r => if Ascii.eqb c "-" then (true, r) else (false, s)
    | EmptyString => (false, s)
    end in
  match s1 with
  | String c r =>
      if is_digit c then
        let (ds, s2) := if Ascii.eqb c "0" then ([0%Z], r) else digits s1 in
        let (fs, s3) :=
          match s2 with
          | String dot (String d r') =>
              if (Ascii.eqb dot "." && is_digit d)%bool
              then digits (String d r') else ([], s2)
          | _ => ([], s2)
          end in
        let (ex, s4) :=
          match s3 with
          | String e r3 =>
              if (Ascii.eqb e "e" || Ascii.eqb e "E")%bool then
                let (eneg, r4) :=
                  match r3 with
                  | String sg x =>
                      if Ascii.eqb sg "+" then (false, x)
                      else if Ascii.eqb sg "-" then (true, x)
                      else (false, r3)
                  | EmptyString => (false, r3)
                  end in
                match digits r4 with
                | ([], _) => (None, s3)
                | (es, r5) =>
                    (Some (if eneg then (- number_of es)%Z else number_of es),
                     r5)
                end
              else (None, s3)
          | EmptyString => (None, s3)
          end in
        let sign := fun z : Z => if neg then (- z)%Z else z in
        let value :=
          match fs, ex with
          | [], None => PyInt (sign (number_of ds))
          | _, _ =>
              PyFloat (scale10 (sign (number_of (ds ++ fs)%list))
                         ((match ex with Some e => e | None => 0 end)
                          - Z.of_nat (List.length fs)))
          end in
        Some (value, s4, pos + (String.length s - String.length s4))
      else None
  | EmptyString => None
  end.

Fixpoint drop (n : nat) (s : string) : string :=
  match n, s with
  | S n', String _ s' => drop n' s'
  | _, _ => s
  end.

(** [d[key] = v] on an insertion-ordered dict. *)
Fixpoint dict_set (key : string) (v : pyval) (kvs : list (string * pyval))
  : list (string * pyval) :=
  match kvs with
  | [] => [(key, v)]
  | (k, old) :: rest =>
      if String.eqb k key then (k, v) :: rest
      else (k, old) :: dict_set key v rest
  end.

(** One value at the head of [s]; the items of an array from the head
    of an item on; the members of an object from the head of a
    property name on. *)
Fixpoint scan_once (fuel : nat) (s : string) (pos : nat) : parsed pyval :=
  match fuel with
  | O => inl ("Expecting value", pos)
  | S f =>
      match s with
      | EmptyString => inl ("Expecting value", pos)
      | String c s' =>
          if Ascii.eqb c dquote then
            match scan_string s' (S pos) pos "" with
            | inl e => inl e
            | inr (str, rest, p) => inr (PyStr str, rest, p)
            end
          else if Ascii.eqb c "{" then
            let (s1, p1) := skip_ws s' (S pos) in
            match s1 with
            | String c1 r1 =>
                if Ascii.eqb c1 "}" then inr (PyDict [], r1, S p1)
                else object_members f s1 p1 []
            | EmptyString => object_members f s1 p1 []
            end
          else if Ascii.eqb c "[" then
            let (s1, p1) := skip_ws s' (S pos) in
            match s1 with
            | String c1 r1 =>
                if Ascii.eqb c1 "]" then inr (PyList [], r1, S p1)
                else array_items f s1 p1 []
            | EmptyString => array_items f s1 p1 []
            end
          else if String.prefix "null" s then inr (PyNone, drop 4 s, 4 + pos)
          else if String.prefix "true" s
          then inr (PyBool true, drop 4 s, 4 + pos)
          else if String.prefix "false" s
          then inr (PyBool false, drop 5 s, 5 + pos)
          else
            match scan_number s pos with
            | Some r => inr r
            | None => inl ("Expecting value", pos)
            end
      end
  end

with array_items (fuel : nat) (s : string) (pos : nat) (acc : list pyval)
  : parsed pyval :=
  match fuel with
  | O => inl ("Expecting value", pos)
  | S f =>
      match scan_once f s pos with
      | inl e => inl e
      | inr (v, s1, p1) =>
          let (s2, p2) := skip_ws s1 p1 in
          match s2 with
          | String c r =>
              if Ascii.eqb c "]" then inr (PyList (acc ++ [v])%list, r, S p2)
              else if Ascii.eqb c "," then
                let (s3, p3) := skip_ws r (S p2) in
                array_items f s3 p3 (acc ++ [v])%list
              else inl ("Expecting ',' delimiter", p2)
          | EmptyString => inl ("Expecting ',' delimiter", p2)
          end
      end
  end

with object_members (fuel : nat) (s : string) (pos : nat)
  (acc : list (string * pyval)) : parsed pyval :=
  match fuel with
  | O => inl ("Expecting value", pos)
  | S f =>
      let no_name : parsed pyval :=
        inl ("Expecting property name enclosed in double quotes", pos) in
      match s with
      | EmptyString => no_name
      | String c r =>
          if negb (Ascii.eqb c dquote) then no_name
          else
            match scan_string r (S pos) pos "" with
            | inl e => inl e
            | inr (key, s1, p1) =>
                let (s2, p2) := skip_ws s1 p1 in
                let no_colon : parsed pyval :=
                  inl ("Expecting ':' delimiter", p2) in
                match s2 with
                | EmptyString => no_colon
                | String c2 r2 =>
                    if negb (Ascii.eqb c2 ":") then no_colon
                    else
                      let (s3, p3) := skip_ws r2 (S p2) in
                      match scan_once f s3 p3 with
                      | inl e => inl e
                      | inr (v, s4, p4) =>
                          let (s5, p5) := skip_ws s4 p4 in
                          let acc' := dict_set key v acc in
                          match s5 with
                          | String c5 r5 =>
                              if Ascii.eqb c5 "}"
                              then inr (PyDict acc', r5, S p5)
                              else if Ascii.eqb c5 "," then
                                let (s6, p6) := skip_ws r5 (S p5) in
                                object_members f s6 p6 acc'
                              else inl ("Expecting ',' delimiter", p5)
                          | EmptyString => inl ("Expecting ',' delimiter", p5)
                          end
                      end
                end
            end
      end
  end.

(** [JSONDecoder.decode]: one value, then nothing but whitespace. *)
Definition decode (s : string) : perror + pyval :=
  let (s1, p1) := skip_ws s 0 in
  match scan_once (2 * String.length s + 2) s1 p1 with
  | inl e => inl e
  | inr (v, rest, p) =>
      let (r2, p2) := skip_ws rest p in
      match r2 with
      | EmptyString => inr v
      | _ => inl ("Extra data", p2)
      end
  end.

(** Line and column of position [pos] in [doc], both from 1. *)
Fixpoint line_col (doc : string) (pos : nat) (line col : nat) : nat * nat :=
  match pos, doc with
  | S p, String c rest =>
      if N.eqb (code c) 10 then line_col rest p (S line) 1
      else line_col rest p line (S col)
  | _, _ => (line, col)
  end.

Definition nat_text (n : nat) : string := NilZero.string_of_uint (Nat.to_uint n).

(** [str(e)] of a [JSONDecodeError]. *)
Definition decode_error_text (doc : string) (e : perror) : string :=
  let (msg, pos) := e in
  let (line, col) := line_col doc pos 1 1 in
  msg ++ ": line " ++ nat_text line ++ " column " ++ nat_text col
      ++ " (char " ++ nat_text pos ++ ")".

Definition reference_json_loads (s : string) : result pyval :=
  match decode s with
  | inl e => inl (LibraryError "JSONDecodeError" (decode_error_text s e))
  | inr v => inr v
  end.

(* ------------------------------------------------------------------ *)
(** ** A runtime to run the server on concrete sessions

    Dense matrices, toy vectorizers over a two-word vocabulary, a
    registry given by the caller, and a pandas that rejects every
    irregular payload. *)

Definition dense : Type := list (list Q).

Definition dense_getrow (X : dense) (i : nat) : result dense :=
  match nth_error X i with
  | Some row => inr [row]
  | None => inl (LibraryError "IndexError" "row index out of range")
  end.

Fixpoint dense_hstack (blocks : list dense) : result dense :=
  match blocks with
  | [] => inl (LibraryError "ValueError" "blocks must be non-empty")
  | [b] => inr b
  | b :: rest =>
      match dense_hstack rest with
      | inl e => inl e
      | inr r =>
          if Nat.eqb (List.length b) (List.length r)
          then inr (map (fun ab => (fst ab ++ snd ab)%list) (combine b r))
          else inl (LibraryError "ValueError" "incompatible row dimensions")
      end
  end.

Definition occurrences (w : string) (tokens : list string) : Z :=
  Z.of_nat (List.length (filter (String.eqb w) tokens)).

Definition bag (vocabulary : list string) (texts : list string) : dense :=
  map (fun t => map (fun w => inject_Z (occurrences w (split t))) vocabulary)
      texts.

(** A model that always answers [p]. *)
Definition constant_model (p : Q) : dense -> result Q := fun _ => inr p.

(** A model that answers [hi] when column [col] of its row is at
    least 1 and [lo] otherwise. *)
Definition column_model (col : nat) (hi lo : Q) : dense -> result Q :=
  fun X =>
    match X with
    | [row] =>
        match nth_error row col with
        | Some x => inr (if Qle_bool 1 x then hi else lo)
        | None => inl (LibraryError "ValueError" "X has too few features")
        end
    | _ => inl (LibraryError "ValueError" "expected a single row")
    end.

Fixpoint fraction_digits (fuel : nat) (r d : Z) : string :=
  match fuel with
  | O => ""
  | S f =>
      if (r =? 0)%Z then ""
      else String (ascii_of_N (48 + Z.to_N (10 * r / d)))
                  (fraction_digits f (10 * r mod d) d)
  end.

(** Decimal expansion, for rationals whose expansion is short. *)
Definition short_float_repr (q : Q) : string :=
  let n := Z.abs (Qnum q) in
  let d := Zpos (Qden q) in
  let fr := fraction_digits 17 (n mod d) d in
  (if (Qnum q <? 0)%Z then "-" else "")
    ++ decimal (n / d) ++ "."
    ++ match fr with EmptyString => "0" | _ => fr end.

Definition demo_pandas_irregular (v : pyval)
  : result (nat * list string * dense) :=
  match v with
  | PyList _ | PyDict _ =>
      inl (LibraryError "AttributeError"
             "Can only use .str accessor with string values!")
  | _ =>
      inl (LibraryError "ValueError"
             "If using all scalar values, you must pass an index")
  end.

Definition demo_runtime (registry : list (string * (dense -> result Q)))
  : Runtime :=
  {| matrix := dense;
     json_loads := reference_json_loads;
     float_repr := short_float_repr;
     body_tfidf := fun texts => inr (bag ["buy"; "free"] texts);
     rule_tfidf := fun names => inr (bag ["spam"] names);
     models := registry;
     csr_matrix := fun values => values;
     getrow := dense_getrow;
     hstack := dense_hstack;
     pandas_irregular := demo_pandas_irregular |}.

(** A JSON text written with single quotes standing for the double
    quotes. *)
Fixpoint jtext (s : string) : string :=
  match s with
  | EmptyString => EmptyString
  | String c s' => String (if Ascii.eqb c "'" then dquote else c) (jtext s')
  end.

(* ------------------------------------------------------------------ *)
(** ** Vocabulary of the statements *)

(** [pat] occurs in [s]. *)
Definition contains (pat s : string) : Prop :=
  exists pre post, s = pre ++ pat ++ post.

(** [pat] occurs in [s] up to the case of the letters of [s]. *)
Definition contains_ignoring_case (pat s : string) : Prop :=
  exists pre mid post, s = pre ++ mid ++ post /\ lower mid = pat.

Definition field (key : string) (v : pyval) : option pyval :=
  match v with
  | PyDict kvs => lookup key kvs
  | _ => None
  end.

(** An entry whose status is ["Error"]. *)
Definition is_error_entry (v : pyval) : bool :=
  match field "status" v with
  | Some (PyStr s) => String.eqb s "Error"
  | _ => false
  end.

(** A response in the failure shape: a [results] list of error
    entries. *)
Definition is_error_response (v : pyval) : bool :=
  match field "results" v with
  | Some (PyList entries) => forallb is_error_entry entries
  | _ => false
  end.

Definition printed (r : outcome * locals * list work) : outcome :=
  fst (fst r).

Definition work_done (r : outcome * locals * list work) : list work :=
  snd r.

(** The loop of lines 88-96 once every probability is known. *)
Fixpoint select (ps : list (string * Q)) (max_prob : Q)
  (violated_rule : option string) : Q * option string :=
  match ps with
  | [] => (max_prob, violated_rule)
  | (rule_name, prob) :: rest =>
      if Qgtb prob max_prob then select rest prob (Some rule_name)
      else select rest max_prob violated_rule
  end.

(** The entry of a comment no rule objects to. *)
Definition safe_entry (p : Q) : pyval :=
  PyDict [("probability", PyFloat p); ("status", PyStr "Safe");
          ("rule", PyStr "")].

Definition violation_entry (p : Q) (rule_name : string) : pyval :=
  PyDict [("probability", PyFloat p); ("status", PyStr "Violates rule");
          ("rule", PyStr rule_name)].

Section Probabilities.
Context {R : Runtime}.

(** [ps] lists, in registry order, the probability every model gives
    comment [i]. *)
Definition probabilities (X_body X_num : matrix) (i : nat)
  (ms : list (string * (matrix -> result Q))) (ps : list (string * Q))
  : Prop :=
  Forall2 (fun m p =>
             fst m = fst p /\
             yields (rule_probability X_body X_num i (fst m) (snd m)) (snd p))
          ms ps.

End Probabilities.

(** Registries and sessions of the examples. *)
Definition spam_registry : list (string * (dense -> result Q)) :=
  [("insult", constant_model (1 # 10));
   ("spam", column_model 5 (9 # 10) (1 # 20))].

Definition tied_registry : list (string * (dense -> result Q)) :=
  [("zeta", constant_model (1 # 5));
   ("spam", constant_model (7 # 10));
   ("alpha", constant_model (7 # 10))].

Definition silent_registry : list (string * (dense -> result Q)) :=
  [("alpha", constant_model 0); ("beta", constant_model 0)].

Definition threshold_registry : list (string * (dense -> result Q)) :=
  [("edge", constant_model (1 # 2))].

Definition one_row : dense := [[0%Q]].

Definition spam_line : string :=
  jtext "{'comments': ['Buy now!!! http://spam.biz']}".

(* ------------------------------------------------------------------ *)
(** ** Loading the per-rule models (lines 33-38) *)

(** [s.endswith(p)]: some suffix of [s] is [p]. *)
Fixpoint endswith (p s : string) : bool :=
  (String.eqb s p
   || match s with
      | EmptyString => false
      | String _ s' => endswith p s'
      end)%bool.

Definition model_prefix : string := "logreg_model_rule_".
Definition model_suffix : string := ".pkl".

(** Line 35: the test on a file name of the scripts folder. *)
Definition is_model_file (file : string) : bool :=
  (String.prefix model_prefix file && endswith model_suffix file)%bool.

(** Line 36: [file[len("logreg_model_rule_"):-4]]. *)
Definition rule_name_of (file : string) : string :=
  substring (String.length model_prefix)
            (String.length file - 4 - String.length model_prefix) file.

Section Loading.
Variable model : Type.
(** [pickle.load] of the named file. *)
Variable load : string -> result model.

(** [models[rule_name] = m] *)
Fixpoint registry_set (rule_name : string) (m : model)
  (registry : list (string * model)) : list (string * model) :=
  match registry with
  | [] => [(rule_name, m)]
  | (k, old) :: rest =>
      if String.eqb k rule_name then (k, m) :: rest
      else (k, old) :: registry_set rule_name m rest
  end.

(** Lines 34-38: the loop over [os.listdir(scripts_folder)], from the
    registry built so far.  A load that raises ends the start-up. *)
Fixpoint load_models (files : list string) (registry : list (string * model))
  : result (list (string * model)) :=
  match files with
  | [] => inr registry
  | file :: rest =>
      if is_model_file file
      then match load file with
           | inl e => inl e
           | inr m => load_models rest (registry_set (rule_name_of file) m registry)
           end
      else load_models rest registry
  end.

End Loading.

(* ------------------------------------------------------------------ *)
(** ** Further vocabulary *)

(** Every character of [s] satisfies [p]. *)
Fixpoint all_chars (p : ascii -> bool) (s : string) : bool :=
  match s with
  | EmptyString => true
  | String c s' => (p c && all_chars p s')%bool
  end.

(** A line the loop skips. *)
Definition is_blank (raw : string) : bool := String.eqb (strip raw) "".

Definition nonblank (lines : list string) : list string :=
  filter (fun raw => negb (is_blank raw)) lines.

(** The library calls behind one probability, in order. *)
Definition rule_work (rule_name : string) (i : nat) : list work :=
  [RuleTransform [rule_name]; RowAccess i; RowAccess i; Stack;
   PredictProba rule_name i].

(** An entry of a scored batch: a probability that is not negative,
    with status ["Safe"] below 0.5 and otherwise status
    ["Violates rule"] and one of the [rules]. *)
Definition scored_entry (rules : list string) (entry : pyval) : Prop :=
  exists p, (0 <= p)%Q
            /\ ((p < 1 # 2)%Q /\ entry = safe_entry p
                \/ (1 # 2 <= p)%Q
                   /\ exists r, In r rules /\ entry = violation_entry p r).

(** Example registries with a model that raises. *)
Definition broken_registry : list (string * (dense -> result Q)) :=
  [("insult", constant_model (9 # 10));
   ("spam", column_model 99 (9 # 10) (1 # 20))].

(* ================================================================== *)
(** * Properties *)

(* ------------------------------------------------------------------ *)
(** ** Numeric features *)

Lemma count_if_bounds (p : ascii -> bool) (s : string) :
  (0 <= count_if p s <= len s)%Z.
Proof.
  unfold len. induction s as [| c s IH]; simpl String.length.
  - simpl. lia.
  - cbn [count_if]. destruct (p c); lia.
Qed.

Lemma truediv_nonzero (a b : Z) :
  b <> 0%Z -> truediv a b = inr (inject_Z a / inject_Z b)%Q.
Proof.
  intros Hb. unfold truediv.
  destruct (Z.eqb_spec b 0) as [E | _]; [contradiction | reflexivity].
Qed.

Lemma ratio_in_unit_interval (a b : Z) :
  (0 <= a <= b)%Z -> (1 <= b)%Z ->
  (0 <= inject_Z a / inject_Z b <= 1)%Q.
Proof.
  intros [Ha Hab] Hb.
  assert (Hpos : (0 < inject_Z b)%Q).
  { replace 0%Q with (inject_Z 0) by reflexivity. rewrite <- Zlt_Qlt. lia. }
  split.
  - apply Qle_shift_div_l; [exact Hpos |].
    rewrite Qmult_0_l.
    replace 0%Q with (inject_Z 0) by reflexivity. rewrite <- Zle_Qle. lia.
  - apply Qle_shift_div_r; [exact Hpos |].
    rewrite Qmult_1_l. rewrite <- Zle_Qle. lia.
Qed.

Lemma upper_ratio_total (x : string) :
  exists ratio, upper_ratio x = inr ratio /\ (0 <= ratio <= 1)%Q.
Proof.
  unfold upper_ratio.
  pose proof (count_if_bounds isupper x) as Hc.
  assert (Hlen : (0 <= len x)%Z) by (unfold len; lia).
  rewrite truediv_nonzero by lia.
  eexists; split; [reflexivity |].
  apply ratio_in_unit_interval; lia.
Qed.

Lemma numeric_features_total (x : cell) :
  exists fv, numeric_features x = inr fv
             /\ (0 <= uppercase_ratio fv <= 1)%Q.
Proof.
  unfold numeric_features.
  destruct (upper_ratio_total (fillna x)) as [ratio [E Hr]].
  rewrite E. eexists; split; [reflexivity | exact Hr].
Qed.

Lemma add_numeric_features_total (df : list cell) :
  exists rows, add_numeric_features df = inr rows /\ map fst rows = df.
Proof.
  induction df as [| x df [rows [E Hrows]]].
  - exists []. split; reflexivity.
  - destruct (numeric_features_total x) as [fv [Ex _]].
    exists ((x, fv) :: rows). cbn [add_numeric_features].
    rewrite Ex, E. split; [reflexivity |]. simpl. now rewrite Hrows.
Qed.

(** C9.  On every string, the empty one included, the numeric feature
    extraction raises nothing: the divisor of the uppercase ratio is at
    least 1, a feature vector comes back, and its [uppercase_ratio] lies
    between 0 and 1. *)
Theorem numeric_features_never_raise (body : string) :
  (1 <= Z.max (len body) 1)%Z
  /\ exists fv, numeric_features (Some body) = inr fv
                /\ (0 <= uppercase_ratio fv <= 1)%Q.
Proof.
  split; [lia |]. apply numeric_features_total.
Qed.

(* ------------------------------------------------------------------ *)
(** ** The URL flag *)

Ltac head_char H :=
  match type of H with
  | (if Ascii.eqb ?a ?c then _ else _) = true =>
      destruct (Ascii.eqb_spec a c) as [-> | _]; [| discriminate H]
  end.

(** A match of the pattern at the head of [s] is one of its two
    spellings, in lower case. *)
Lemma url_match_here (s : string) :
  rmatch url_pattern s (fun _ => true) = true <->
  exists post, s = "http://" ++ post \/ s = "https://" ++ post.
Proof.
  split.
  - intros H. cbn in H.
    destruct s as [| c1 s]; [discriminate |]. head_char H.
    destruct s as [| c2 s]; [discriminate |]. head_char H.
    destruct s as [| c3 s]; [discriminate |]. head_char H.
    destruct s as [| c4 s]; [discriminate |]. head_char H.
    apply orb_true_iff in H. destruct H as [H | H].
    + destruct s as [| c5 s]; [discriminate |].
      simpl existsb in H. rewrite orb_false_r in H. head_char H.
      destruct s as [| c6 s]; [discriminate |]. head_char H.
      destruct s as [| c7 s]; [discriminate |]. head_char H.
      destruct s as [| c8 s]; [discriminate |]. head_char H.
      exists s. right. reflexivity.
    + destruct s as [| c5 s]; [discriminate |]. head_char H.
      destruct s as [| c6 s]; [discriminate |]. head_char H.
      destruct s as [| c7 s]; [discriminate |]. head_char H.
      exists s. left. reflexivity.
  - intros [post [-> | ->]]; reflexivity.
Qed.

Lemma re_search_spec (r : regex) (s : string) :
  re_search r s = true <->
  exists pre rest, s = pre ++ rest /\ rmatch r rest (fun _ => true) = true.
Proof.
  induction s as [| c s IH].
  - cbn [re_search]. rewrite orb_false_r. split.
    + intros H. exists "", "". split; [reflexivity | exact H].
    + intros [pre [rest [E H]]].
      destruct pre; [| discriminate]. simpl in E. now subst rest.
  - cbn [re_search]. rewrite orb_true_iff, IH. split.
    + intros [H | [pre [rest [E H]]]].
      * exists "", (String c s). split; [reflexivity | exact H].
      * exists (String c pre), rest. split; [simpl; now rewrite E | exact H].
    + intros [pre [rest [E H]]]. destruct pre as [| x pre].
      * left. simpl in E. now subst rest.
      * right. simpl in E. injection E as _ E. now exists pre, rest.
Qed.

Lemma url_search_spec (s : string) :
  re_search url_pattern s = true <->
  contains "http://" s \/ contains "https://" s.
Proof.
  rewrite re_search_spec. unfold contains. split.
  - intros [pre [rest [E H]]]. apply url_match_here in H.
    destruct H as [post [-> | ->]]; [left | right]; now exists pre, post.
  - intros [[pre [post E]] | [pre [post E]]].
    + exists pre, ("http://" ++ post). split; [exact E |].
      apply url_match_here. exists post. now left.
    + exists pre, ("https://" ++ post). split; [exact E |].
      apply url_match_here. exists post. now right.
Qed.

Lemma has_url_is_url_flag (body : string) (fv : NumericFeatureVector) :
  numeric_features (Some body) = inr fv -> has_url fv = url_flag body.
Proof.
  unfold numeric_features. simpl fillna.
  destruct (upper_ratio body); [discriminate |].
  intros H. injection H as <-. reflexivity.
Qed.

(** C2, as the code has it.  The [has_url] feature of a body is 1
    exactly when the body contains [http://] or [https://] spelled in
    lower case, and 0 otherwise; the match is case-sensitive. *)
Theorem url_flag_case_sensitive (body : string) :
  (url_flag body = 1%Z <-> contains "http://" body \/ contains "https://" body)
  /\ (url_flag body = 0%Z <->
      ~ (contains "http://" body \/ contains "https://" body))
  /\ (forall fv, numeric_features (Some body) = inr fv ->
                 has_url fv = url_flag body).
Proof.
  split; [| split].
  - rewrite <- url_search_spec. unfold url_flag.
    destruct (re_search url_pattern body); simpl; split;
      intros H; try reflexivity; discriminate H.
  - rewrite <- url_search_spec. unfold url_flag.
    destruct (re_search url_pattern body); simpl; split; intros H.
    + discriminate H.
    + exfalso. now apply H.
    + intros H'. discriminate H'.
    + reflexivity.
  - apply has_url_is_url_flag.
Qed.

(** Counterexample to C2 as stated: [HTTP://example.com] contains
    [http://] up to case, and its [has_url] feature is 0. *)
Lemma uppercase_scheme_not_flagged :
  contains_ignoring_case "http://" "HTTP://example.com"
  /\ url_flag "HTTP://example.com" = 0%Z
  /\ exists fv, numeric_features (Some "HTTP://example.com") = inr fv
                /\ has_url fv = 0%Z.
Proof.
  split; [| split].
  - exists "", "HTTP://", "example.com". split; reflexivity.
  - reflexivity.
  - eexists. split; [reflexivity | reflexivity].
Qed.

(* ------------------------------------------------------------------ *)
(** ** Steps of the [try] block *)

Lemma yields_ret {A} (a b : A) : yields (ret a) b <-> a = b.
Proof.
  unfold yields, ret. simpl. split; intros H; [now injection H | now rewrite H].
Qed.

Lemma yields_call {A} (w : work) (r : result A) (a : A) :
  yields (call w r) a <-> r = inr a.
Proof. reflexivity. Qed.

Lemma yields_bind {A B} (m : M A) (f : A -> M B) (b : B) :
  yields (bind m f) b <-> exists a, yields m a /\ yields (f a) b.
Proof.
  unfold yields, bind. destruct m as [w [e | a]]; simpl.
  - split; [discriminate | intros [a [H _]]; discriminate H].
  - destruct (f a) as [w' r] eqn:E; simpl. split.
    + intros H. exists a. split; [reflexivity | now rewrite E].
    + intros [a' [H H']]. injection H as <-. now rewrite E in H'.
Qed.

(* ------------------------------------------------------------------ *)
(** ** The running maximum *)

Lemma Qgtb_true (p q : Q) : Qgtb p q = true <-> (q < p)%Q.
Proof.
  unfold Qgtb. rewrite negb_true_iff, <- not_true_iff_false, Qle_bool_iff.
  split; [apply Qnot_le_lt | apply Qlt_not_le].
Qed.

Lemma Qgtb_false (p q : Q) : Qgtb p q = false <-> (p <= q)%Q.
Proof. unfold Qgtb. rewrite negb_false_iff. apply Qle_bool_iff. Qed.

(** The maximum never decreases and dominates every probability seen. *)
Lemma select_bounds (ps : list (string * Q)) :
  forall max_prob rule m v,
    select ps max_prob rule = (m, v) ->
    (max_prob <= m)%Q /\ forall r p, In (r, p) ps -> (p <= m)%Q.
Proof.
  induction ps as [| [r0 p0] ps IH]; intros max_prob rule m v H.
  - injection H as <- <-. split; [apply Qle_refl | intros r p []].
  - cbn [select] in H. destruct (Qgtb p0 max_prob) eqn:E.
    + apply Qgtb_true in E. destruct (IH _ _ _ _ H) as [H1 H2]. split.
      * apply Qlt_le_weak. eapply Qlt_le_trans; eassumption.
      * intros r p [Hin | Hin]; [| now apply (H2 r)].
        injection Hin as _ <-. exact H1.
    + apply Qgtb_false in E. destruct (IH _ _ _ _ H) as [H1 H2]. split.
      * exact H1.
      * intros r p [Hin | Hin]; [| now apply (H2 r)].
        injection Hin as _ <-. eapply Qle_trans; eassumption.
Qed.

(** Either nothing exceeded the initial maximum, or the result is a
    rule of the list together with its own probability, which exceeds
    the initial maximum. *)
Lemma select_origin (ps : list (string * Q)) :
  forall max_prob rule m v,
    select ps max_prob rule = (m, v) ->
    (m = max_prob /\ v = rule)
    \/ exists r, v = Some r /\ In (r, m) ps /\ (max_prob < m)%Q.
Proof.
  induction ps as [| [r0 p0] ps IH]; intros max_prob rule m v H.
  - injection H as <- <-. now left.
  - cbn [select] in H. destruct (Qgtb p0 max_prob) eqn:E.
    + apply Qgtb_true in E. right.
      destruct (IH _ _ _ _ H) as [[-> ->] | [r [-> [Hin Hlt]]]].
      * exists r0. repeat split; [now left | exact E].
      * exists r. repeat split; [now right |].
        eapply Qlt_trans; eassumption.
    + destruct (IH _ _ _ _ H) as [[-> ->] | [r [-> [Hin Hlt]]]].
      * now left.
      * right. exists r. repeat split; [now right | exact Hlt].
Qed.

Lemma select_app (ps qs : list (string * Q)) :
  forall max_prob rule,
    select (ps ++ qs) max_prob rule =
    select qs (fst (select ps max_prob rule)) (snd (select ps max_prob rule)).
Proof.
  induction ps as [| [r0 p0] ps IH]; intros max_prob rule.
  - reflexivity.
  - cbn [app select]. destruct (Qgtb p0 max_prob); apply IH.
Qed.

(** Probabilities that do not exceed the maximum leave it, and the
    recorded rule, as they are. *)
Lemma select_keeps (ps : list (string * Q)) (max_prob : Q)
  (rule : option string) :
  (forall r p, In (r, p) ps -> (p <= max_prob)%Q) ->
  select ps max_prob rule = (max_prob, rule).
Proof.
  induction ps as [| [r0 p0] ps IH]; intros H.
  - reflexivity.
  - cbn [select].
    assert (E : Qgtb p0 max_prob = false)
      by (apply Qgtb_false, (H r0); now left).
    rewrite E. apply IH. intros r p Hin. apply (H r). now right.
Qed.

(** The first rule that attains a positive maximum is the one kept. *)
Lemma select_first_maximum (pre post : list (string * Q)) (r : string) (p : Q) :
  (0 < p)%Q ->
  (forall r' p', In (r', p') pre -> (p' < p)%Q) ->
  (forall r' p', In (r', p') post -> (p' <= p)%Q) ->
  select (pre ++ (r, p) :: post) 0 None = (p, Some r).
Proof.
  intros Hpos Hpre Hpost.
  rewrite select_app.
  destruct (select pre 0 None) as [m v] eqn:E. cbn [fst snd select].
  assert (Hm : (m < p)%Q).
  { destruct (select_origin _ _ _ _ _ E) as [[-> _] | [r' [_ [Hin _]]]].
    - exact Hpos.
    - now apply (Hpre r'). }
  apply Qgtb_true in Hm. rewrite Hm.
  now apply select_keeps.
Qed.

Lemma status_violates (m : Q) : (1 # 2 <= m)%Q -> status_of m = "Violates rule".
Proof.
  intros H. unfold status_of. apply Qle_bool_iff in H. now rewrite H.
Qed.

Lemma status_safe (m : Q) : (m < 1 # 2)%Q -> status_of m = "Safe".
Proof.
  intros H. unfold status_of.
  destruct (Qle_bool (1 # 2) m) eqn:E; [| reflexivity].
  apply Qle_bool_iff in E. exfalso. now apply (Qlt_not_le _ _ H).
Qed.

Lemma result_entry_violates (m : Q) (r : string) :
  (1 # 2 <= m)%Q -> result_entry m (Some r) = violation_entry m r.
Proof.
  intros H. unfold result_entry. now rewrite (status_violates m H).
Qed.

Lemma result_entry_safe (m : Q) (v : option string) :
  (m < 1 # 2)%Q -> result_entry m v = safe_entry m.
Proof.
  intros H. unfold result_entry. now rewrite (status_safe m H).
Qed.

Section Scoring.
Context {R : Runtime}.
Variables X_body X_num : matrix.
Variable i : nat.

(** Once every model has answered, the loop returns what [select]
    computes from the answers. *)
Lemma score_rules_select ms ps :
  probabilities X_body X_num i ms ps ->
  forall max_prob rule,
    yields (score_rules X_body X_num i ms max_prob rule)
           (select ps max_prob rule).
Proof.
  induction 1 as [| [name model] [name' prob] ms ps [Hname Hprob] _ IH];
    intros max_prob rule.
  - reflexivity.
  - simpl in Hname, Hprob. subst name'.
    cbn [score_rules select]. apply yields_bind.
    exists prob. split; [exact Hprob |].
    destruct (Qgtb prob max_prob); apply IH.
Qed.

(** A loop that returns has heard every model. *)
Lemma score_rules_inv ms :
  forall max_prob rule res,
    yields (score_rules X_body X_num i ms max_prob rule) res ->
    exists ps, probabilities X_body X_num i ms ps
               /\ res = select ps max_prob rule.
Proof.
  induction ms as [| [name model] ms IH]; intros max_prob rule res H.
  - exists []. split; [constructor |].
    cbn [score_rules] in H.
    apply (proj1 (yields_ret (max_prob, rule) res)) in H. now subst res.
  - cbn [score_rules] in H. apply yields_bind in H.
    destruct H as [prob [Hprob H]].
    destruct (Qgtb prob max_prob) eqn:E;
      destruct (IH _ _ _ H) as [ps [Hps ->]];
      exists ((name, prob) :: ps); (split; [constructor; auto |]);
      cbn [select]; now rewrite E.
Qed.

Lemma probabilities_names ms ps :
  probabilities X_body X_num i ms ps -> map fst ps = map fst ms.
Proof.
  induction 1 as [| m p ms ps [Hname _] _ IH]; simpl; congruence.
Qed.

Lemma score_comment_select ps :
  probabilities X_body X_num i models ps ->
  yields (score_comment X_body X_num i)
         (result_entry (fst (select ps 0 None)) (snd (select ps 0 None))).
Proof.
  intros Hps. unfold score_comment. apply yields_bind.
  exists (select ps 0 None). split; [now apply score_rules_select |].
  now destruct (select ps 0 None).
Qed.

Lemma score_comment_inv entry :
  yields (score_comment X_body X_num i) entry ->
  exists ps, probabilities X_body X_num i models ps
             /\ entry = result_entry (fst (select ps 0 None))
                                     (snd (select ps 0 None)).
Proof.
  unfold score_comment. intros H. apply yields_bind in H.
  destruct H as [[m v] [H Hentry]].
  apply score_rules_inv in H. destruct H as [ps [Hps E]].
  exists ps. split; [exact Hps |].
  rewrite <- E. simpl.
  apply (proj1 (yields_ret (result_entry m v) entry)) in Hentry.
  now subst entry.
Qed.

(** C4.  For a comment every model has answered for: if some rule's
    probability is at least 0.5 (0.5 itself included), the entry has
    status ["Violates rule"], carries a largest probability and the
    rule that gave it; if every probability is below 0.5, the entry has
    status ["Safe"] and its rule is the empty string, not [None]. *)
Theorem verdict_policy ps :
  probabilities X_body X_num i models ps ->
  exists entry,
    yields (score_comment X_body X_num i) entry
    /\ ((exists r p, In (r, p) ps /\ (1 # 2 <= p)%Q) ->
        exists r p, In (r, p) ps
                    /\ (forall r' p', In (r', p') ps -> (p' <= p)%Q)
                    /\ (1 # 2 <= p)%Q
                    /\ entry = violation_entry p r)
    /\ ((forall r p, In (r, p) ps -> (p < 1 # 2)%Q) ->
        exists p, (p < 1 # 2)%Q /\ entry = safe_entry p
                  /\ field "rule" entry = Some (PyStr "")).
Proof.
  intros Hps. eexists. split; [exact (score_comment_select ps Hps) |].
  destruct (select ps 0 None) as [m v] eqn:E. cbn [fst snd].
  destruct (select_bounds _ _ _ _ _ E) as [_ Hmax].
  destruct (select_origin _ _ _ _ _ E) as [[-> ->] | [r [-> [Hin _]]]].
  - split.
    + intros [r [p [Hin Hp]]]. exfalso.
      apply (Qlt_not_le 0 (1 # 2)); [reflexivity |].
      eapply Qle_trans; [exact Hp | now apply (Hmax r)].
    + intros _. exists 0%Q. repeat split.
  - split.
    + intros [r' [p' [Hin' Hp']]].
      assert (Hm : (1 # 2 <= m)%Q)
        by (eapply Qle_trans; [exact Hp' | now apply (Hmax r')]).
      exists r, m. repeat split; try assumption.
      now apply result_entry_violates.
    + intros Hlow. exists m. pose proof (Hlow _ _ Hin) as Hm.
      rewrite (result_entry_safe _ _ Hm). repeat split. exact Hm.
Qed.

(** C5, as the code has it.  When the largest probability is greater
    than 0, the rule the loop keeps is the first one, in registry
    order, that attains it: later rules with the same probability do
    not replace it. *)
Theorem first_maximum_wins pre post r p :
  probabilities X_body X_num i models (pre ++ (r, p) :: post) ->
  (0 < p)%Q ->
  (forall r' p', In (r', p') pre -> (p' < p)%Q) ->
  (forall r' p', In (r', p') post -> (p' <= p)%Q) ->
  yields (score_rules X_body X_num i models 0 None) (p, Some r).
Proof.
  intros Hps Hpos Hpre Hpost.
  rewrite <- (select_first_maximum pre post r p Hpos Hpre Hpost).
  now apply score_rules_select.
Qed.

(** An entry with status ["Violates rule"] names, in its [rule] field,
    a rule of the registry: the maximum started at 0 and reached 0.5,
    so some rule exceeded it and was recorded. *)
Lemma violation_names_registered_rule entry :
  yields (score_comment X_body X_num i) entry ->
  field "status" entry = Some (PyStr "Violates rule") ->
  exists r, field "rule" entry = Some (PyStr r)
            /\ In r (map fst models).
Proof.
  intros H Hstatus.
  destruct (score_comment_inv _ H) as [ps [Hps ->]].
  destruct (select ps 0 None) as [m v] eqn:E. cbn [fst snd] in *.
  assert (Hm : (1 # 2 <= m)%Q).
  { destruct (Qlt_le_dec m (1 # 2)) as [Hlt | Hle]; [| exact Hle].
    rewrite (result_entry_safe _ _ Hlt) in Hstatus. discriminate Hstatus. }
  destruct (select_origin _ _ _ _ _ E) as [[-> _] | [r [-> [Hin _]]]].
  - exfalso. now apply (Qlt_not_le 0 (1 # 2)).
  - exists r. rewrite (result_entry_violates _ _ Hm). split; [reflexivity |].
    rewrite <- (probabilities_names _ _ Hps).
    change r with (fst (r, m)). now apply in_map.
Qed.

End Scoring.

(* ------------------------------------------------------------------ *)
(** ** One turn of the request loop *)

Section Requests.
Context {R : Runtime}.

Lemma blank_line_skipped (st : locals) (raw : string) :
  strip raw = "" -> process_line st raw = (Skipped, st, []).
Proof. intros H. unfold process_line. now rewrite H. Qed.

(** A line that fails before [comments] is assigned goes to the
    handler with the binding the previous turns left. *)
Lemma decode_failure_handled (st : locals) (raw : string) (e : exn) :
  strip raw <> "" ->
  decode_request (strip raw) = inl e ->
  process_line st raw = (except_handler st e, st, []).
Proof.
  intros Hline H. unfold process_line.
  destruct (strip raw); [contradiction | now rewrite H].
Qed.

Lemma falsy_payload_short_circuits (st : locals) (raw : string)
  (comments : pyval) :
  strip raw <> "" ->
  decode_request (strip raw) = inr comments ->
  truthy comments = false ->
  process_line st raw = (Emitted empty_response, Some comments, []).
Proof.
  intros Hline H Hfalse. unfold process_line.
  destruct (strip raw); [contradiction |]. now rewrite H, Hfalse.
Qed.

Lemma scored_batch_response (st : locals) (raw : string) (comments : pyval)
  (results : list pyval) :
  strip raw <> "" ->
  decode_request (strip raw) = inr comments ->
  truthy comments = true ->
  yields (score_batch comments) results ->
  printed (process_line st raw)
  = Emitted (success_response comments results).
Proof.
  intros Hline H Htrue Hres. unfold process_line.
  destruct (strip raw); [contradiction |]. rewrite H, Htrue. simpl negb.
  unfold yields in Hres. destruct (score_batch comments) as [w r].
  simpl in Hres. now subst r.
Qed.

(** What the handler prints when the stale binding is a list. *)
Lemma handler_reuses_previous_batch (items : list pyval) (e : exn) :
  except_handler (Some (PyList items)) e
  = Emitted (PyDict [("comments", PyList items);
                     ("results",
                      PyList (repeat (error_entry e) (List.length items)))]).
Proof. reflexivity. Qed.

(** With [comments] never bound, the handler itself raises. *)
Lemma handler_without_binding_is_fatal (e : exn) :
  except_handler None e = Crashed (UnboundLocalError "comments").
Proof. reflexivity. Qed.

(** A failure on the first request of a session ends the loop,
    whatever follows. *)
Lemma early_failure_ends_session (raw : string) (rest : list string) (e : exn) :
  strip raw <> "" ->
  decode_request (strip raw) = inl e ->
  serve None (raw :: rest)
  = {| responses := []; exit := Some (UnboundLocalError "comments") |}.
Proof.
  intros Hline H. cbn [serve].
  now rewrite (decode_failure_handled None raw e Hline H).
Qed.

(** C7.  A request whose [comments] is the empty list is answered with
    exactly [{"comments": [], "predictions": []}], under the key
    [predictions] where the scored path uses [results], and without any
    feature extraction or scoring work. *)
Theorem empty_batch_short_circuit (st : locals) (raw : string) :
  strip raw <> "" ->
  decode_request (strip raw) = inr (PyList []) ->
  process_line st raw = (Emitted empty_response, Some (PyList []), [])
  /\ work_done (process_line st raw) = []
  /\ json_dumps empty_response = jtext "{'comments': [], 'predictions': []}"
  /\ field "predictions" empty_response = Some (PyList [])
  /\ field "results" empty_response = None
  /\ forall comments results,
       field "results" (success_response comments results)
       = Some (PyList results)
       /\ field "predictions" (success_response comments results) = None.
Proof.
  intros Hline H.
  assert (E : process_line st raw
              = (Emitted empty_response, Some (PyList []), []))
    by now apply falsy_payload_short_circuits.
  rewrite E. repeat split.
Qed.

(** C3, as the code has it.  A line that decodes to an object without
    the [comments] key is read as an empty batch: the answer is the
    empty-batch success response, no error entry is made, and
    [comments] is bound to the empty list. *)
Theorem missing_field_reads_as_empty_batch (st : locals) (raw : string)
  (kvs : list (string * pyval)) :
  strip raw <> "" ->
  json_loads (strip raw) = inr (PyDict kvs) ->
  lookup "comments" kvs = None ->
  process_line st raw = (Emitted empty_response, Some (PyList []), [])
  /\ is_error_response empty_response = false.
Proof.
  intros Hline Hdata Hkey. split; [| reflexivity].
  apply falsy_payload_short_circuits; [exact Hline | | reflexivity].
  unfold decode_request. rewrite Hdata. simpl. now rewrite Hkey.
Qed.

Lemma as_cells_length (items : list pyval) (df : list cell) :
  as_cells items = Some df -> List.length df = List.length items.
Proof.
  revert df. induction items as [| v items IH]; intros df H.
  - injection H as <-. reflexivity.
  - cbn [as_cells] in H. destruct (as_cell v); [| discriminate].
    destruct (as_cells items) as [cs |]; [| discriminate].
    injection H as <-. simpl. now rewrite (IH cs).
Qed.

Lemma score_rows_empty_registry (X_body X_num : matrix) (n : nat) :
  models = [] ->
  forall i, yields (score_rows X_body X_num i n) (repeat (safe_entry 0) n).
Proof.
  intros Hnone. induction n as [| n IH]; intros i.
  - reflexivity.
  - cbn [score_rows repeat]. apply yields_bind. exists (safe_entry 0). split.
    + unfold score_comment. rewrite Hnone. reflexivity.
    + apply yields_bind. exists (repeat (safe_entry 0) n).
      split; [apply IH | reflexivity].
Qed.

Lemma regular_frame (items : list pyval) (df : list cell) (X : matrix) :
  as_cells items = Some df ->
  body_tfidf (map clean_text df) = inr X ->
  exists X_num,
    yields (build_frame (PyList items)) (List.length items, X, X_num).
Proof.
  intros Hdf HX. unfold build_frame. cbn [regular_batch]. rewrite Hdf.
  destruct (add_numeric_features_total df) as [rows [Hrows Hfst]].
  eexists. apply yields_bind. exists rows. split; [exact Hrows |].
  assert (Htexts : map (fun row : cell * NumericFeatureVector =>
                          clean_text (fst row)) rows = map clean_text df)
    by (rewrite <- Hfst; now rewrite map_map).
  rewrite Htexts. apply yields_bind. exists X. split; [exact HX |].
  apply yields_bind. eexists. split; [reflexivity |].
  apply yields_ret. repeat f_equal.
  rewrite <- (as_cells_length items df Hdf), <- Hfst. now rewrite length_map.
Qed.

(** C8.  With no model loaded, every comment of a non-empty batch of
    strings and nulls that is scored gets probability 0.0, status
    ["Safe"] and the empty string as rule. *)
Theorem empty_registry_scores_safe (st : locals) (raw : string)
  (items : list pyval) (df : list cell) (X : matrix) :
  models = [] ->
  strip raw <> "" ->
  decode_request (strip raw) = inr (PyList items) ->
  items <> [] ->
  as_cells items = Some df ->
  body_tfidf (map clean_text df) = inr X ->
  printed (process_line st raw)
  = Emitted (success_response (PyList items)
               (repeat (PyDict [("probability", PyFloat 0);
                                ("status", PyStr "Safe");
                                ("rule", PyStr "")])
                       (List.length items))).
Proof.
  intros Hnone Hline Hreq Hitems Hdf HX.
  apply scored_batch_response; [exact Hline | exact Hreq | |].
  - destruct items; [contradiction | reflexivity].
  - destruct (regular_frame items df X Hdf HX) as [X_num Hframe].
    unfold score_batch. apply yields_bind.
    exists (List.length items, X, X_num). split; [exact Hframe |].
    now apply score_rows_empty_registry.
Qed.

Lemma score_rows_entries (X_body X_num : matrix) (n : nat) :
  forall i entries,
    yields (score_rows X_body X_num i n) entries ->
    forall entry, In entry entries ->
                  exists j, yields (score_comment X_body X_num j) entry.
Proof.
  induction n as [| n IH]; intros i entries H entry Hin.
  - apply (proj1 (yields_ret [] entries)) in H. subst entries. destruct Hin.
  - cbn [score_rows] in H. apply yields_bind in H.
    destruct H as [first [Hfirst H]]. apply yields_bind in H.
    destruct H as [others [Hothers H]].
    apply (proj1 (yields_ret (first :: others) entries)) in H. subst entries.
    destruct Hin as [<- | Hin]; [now exists i | now apply (IH (S i) others)].
Qed.

Lemma error_entries_only (e : exn) (n : nat) (entry : pyval) :
  In entry (repeat (error_entry e) n) ->
  field "status" entry = Some (PyStr "Error").
Proof. intros H. apply repeat_spec in H. now subst entry. Qed.

(** C10.  In whatever the server prints for a request, an entry of
    [results] with status ["Violates rule"] names, in its [rule] field,
    a rule of the registry: it is a string, not [None], and a key of
    [models]. *)
Theorem printed_violation_names_registered_rule (st : locals) (raw : string)
  (response : pyval) (entries : list pyval) (entry : pyval) :
  printed (process_line st raw) = Emitted response ->
  field "results" response = Some (PyList entries) ->
  In entry entries ->
  field "status" entry = Some (PyStr "Violates rule") ->
  exists r, field "rule" entry = Some (PyStr r) /\ In r (map fst models).
Proof.
  unfold process_line, printed.
  assert (Hhandler : forall st' e,
             except_handler st' e = Emitted response ->
             field "results" response = Some (PyList entries) ->
             In entry entries ->
             field "status" entry = Some (PyStr "Error")).
  { intros st' e H Hres Hin. unfold except_handler in H.
    destruct st' as [c |]; [| discriminate].
    destruct (iter_len c) as [n |]; [| discriminate].
    injection H as <-. injection Hres as <-.
    now apply (error_entries_only e n). }
  destruct (strip raw); [discriminate |].
  destruct (decode_request _) as [e | comments].
  - cbn [fst]. intros H Hres Hin Hstatus.
    rewrite (Hhandler _ _ H Hres Hin) in Hstatus. discriminate Hstatus.
  - destruct (truthy comments); cbn [negb]; cbv iota.
    + destruct (score_batch comments) as [w [e | results]] eqn:E; cbn [fst].
      * intros H Hres Hin Hstatus.
        rewrite (Hhandler _ _ H Hres Hin) in Hstatus. discriminate Hstatus.
      * intros H Hres Hin Hstatus. injection H as <-. injection Hres as <-.
        assert (Hy : yields (score_batch comments) results)
          by (unfold yields; now rewrite E).
        unfold score_batch in Hy. apply yields_bind in Hy.
        destruct Hy as [[[n X_body] X_num] [_ Hrows]].
        destruct (score_rows_entries _ _ _ _ _ Hrows entry Hin) as [j Hj].
        exact (violation_names_registered_rule X_body X_num j entry Hj Hstatus).
    + cbn [fst]. intros H Hres. injection H as <-. discriminate Hres.
Qed.


(** A payload that is truthy, fails in the pipeline and cannot be
    iterated makes the handler itself raise. *)
Lemma failing_scalar_payload_is_fatal (st : locals) (raw : string)
  (comments : pyval) (e : exn) (w : list work) :
  strip raw <> "" ->
  decode_request (strip raw) = inr comments ->
  truthy comments = true ->
  score_batch comments = (w, inl e) ->
  iter_len comments = None ->
  printed (process_line st raw) = Crashed (NotIterable (type_name comments)).
Proof.
  intros Hline H Htrue Hfail Hiter. unfold process_line, printed.
  destruct (strip raw); [contradiction |].
  rewrite H, Htrue, Hfail. cbn [negb fst]. unfold except_handler.
  now rewrite Hiter.
Qed.

End Requests.

(* ------------------------------------------------------------------ *)
(** ** Concrete runs *)

Example features_of_a_spam_comment :
  numeric_features (Some "Buy now!!! http://spam.biz")
  = inr {| body_length := 26; word_count := 3; has_url := 1;
           exclamations := 3; questions := 0;
           uppercase_ratio := (inject_Z 1 / inject_Z 26)%Q |}.
Proof. reflexivity. Qed.

Example split_on_whitespace_runs :
  split (String "009"%char "Is THIS  ok? ") = ["Is"; "THIS"; "ok?"]
  /\ strip (String "031"%char " a b  ") = "a b"
  /\ lower "Is THIS ok?" = "is this ok?"
  /\ count_if isupper "Is THIS ok?" = 5%Z.
Proof. repeat split. Qed.

(** The end-to-end example: one rule answers 0.9, the other stays
    below 0.5. *)
Example end_to_end :
  main (R := demo_runtime spam_registry) [spam_line]
  = (["Python server ready.";
      jtext "{'comments': ['Buy now!!! http://spam.biz'], 'results': [{'probability': 0.9, 'status': 'Violates rule', 'rule': 'spam'}]}"],
     None).
Proof. vm_compute. reflexivity. Qed.

(** Blank lines are skipped; they print nothing and leave [comments]
    as it was. *)
Example blank_lines_are_silent :
  main (R := demo_runtime spam_registry) ["   "; ""; jtext "{'comments': []}"]
  = (["Python server ready."; jtext "{'comments': [], 'predictions': []}"],
     None).
Proof. vm_compute. reflexivity. Qed.

(** A scalar payload: pandas rejects it, and the handler cannot
    iterate over it. *)
Example scalar_payload_ends_the_loop :
  main (R := demo_runtime spam_registry)
    [jtext "{'comments': []}"; jtext "{'comments': 5}"; jtext "{'comments': []}"]
  = (["Python server ready."; jtext "{'comments': [], 'predictions': []}"],
     Some (NotIterable "int")).
Proof. vm_compute. reflexivity. Qed.

(** C1.  After the request [{"comments": ["hello"]}], the line [oops],
    which is not JSON, is answered with the batch of the earlier
    request and one error entry for it: the [comments] field is not the
    empty list. *)
Theorem stale_batch_in_error_response :
  main (R := demo_runtime spam_registry) [jtext "{'comments': ['hello']}"; "oops"]
  = (["Python server ready.";
      jtext "{'comments': ['hello'], 'results': [{'probability': 0.1, 'status': 'Safe', 'rule': ''}]}";
      jtext "{'comments': ['hello'], 'results': [{'probability': 0.0, 'status': 'Error', 'rule': '', 'error': 'Expecting value: line 1 column 1 (char 0)'}]}"],
     None)
  /\ printed (process_line (R := demo_runtime spam_registry)
                (Some (PyList [PyStr "hello"])) "oops")
     = Emitted (PyDict [("comments", PyList [PyStr "hello"]);
                        ("results",
                         PyList [error_entry
                                   (LibraryError "JSONDecodeError"
                                      "Expecting value: line 1 column 1 (char 0)")])]).
Proof. split; vm_compute; reflexivity. Qed.

(** C6.  When the first line of a session is not JSON, the handler
    raises [UnboundLocalError] on [comments]: nothing is printed for
    the line, the loop is left, and the valid request that follows is
    never answered. *)
Theorem first_malformed_line_ends_the_loop :
  main (R := demo_runtime spam_registry) ["oops"; jtext "{'comments': []}"]
  = (["Python server ready."], Some (UnboundLocalError "comments")).
Proof. vm_compute. reflexivity. Qed.

(** Counterexample to C3 as stated: the line [{}] decodes to an object
    without [comments], and the answer is the empty-batch success
    response, not an error response. *)
Lemma missing_field_is_not_an_error :
  json_loads (Runtime := demo_runtime spam_registry) (strip "{}")
  = inr (PyDict [])
  /\ lookup "comments" [] = None
  /\ printed (process_line (R := demo_runtime spam_registry) None "{}")
     = Emitted empty_response
  /\ json_dumps (R := demo_runtime spam_registry) empty_response
     = jtext "{'comments': [], 'predictions': []}"
  /\ is_error_response empty_response = false.
Proof. repeat split. Qed.

Lemma missing_field_witness :
  process_line (R := demo_runtime spam_registry) None "{}"
  = (Emitted empty_response, Some (PyList []), [])
  /\ is_error_response empty_response = false.
Proof.
  apply (missing_field_reads_as_empty_batch
           (R := demo_runtime spam_registry) None "{}" []).
  - vm_compute. discriminate.
  - reflexivity.
  - reflexivity.
Defined.

(** A probability of exactly 0.5 is a violation. *)
Lemma verdict_policy_at_threshold :
  exists entry,
    yields (score_comment (R := demo_runtime threshold_registry)
              one_row one_row 0) entry
    /\ entry = violation_entry (1 # 2) "edge".
Proof.
  assert (Hps : probabilities (R := demo_runtime threshold_registry)
                  one_row one_row 0 threshold_registry [("edge", (1 # 2)%Q)])
    by (repeat constructor).
  destruct (verdict_policy (R := demo_runtime threshold_registry)
              one_row one_row 0 [("edge", (1 # 2)%Q)] Hps)
    as [entry [Hentry [Hhigh _]]].
  exists entry. split; [exact Hentry |].
  destruct Hhigh as [r [p [Hin [_ [_ ->]]]]].
  - exists "edge", (1 # 2)%Q. split; [now left | apply Qle_refl].
  - destruct Hin as [Hin | []]. now injection Hin as <- <-.
Defined.

(** Counterexample to C5 as stated: two rules tie at the largest
    probability, 0, and the loop keeps no rule at all, not the first
    one. *)
Lemma tie_at_zero_keeps_no_rule :
  probabilities (R := demo_runtime silent_registry) one_row one_row 0
    silent_registry [("alpha", 0%Q); ("beta", 0%Q)]
  /\ yields (score_rules (R := demo_runtime silent_registry)
               one_row one_row 0 silent_registry 0 None) (0%Q, None)
  /\ ~ yields (score_rules (R := demo_runtime silent_registry)
                 one_row one_row 0 silent_registry 0 None)
              (0%Q, Some "alpha").
Proof.
  split; [repeat constructor | split; [reflexivity |]].
  intros H. vm_compute in H. discriminate H.
Qed.

(** Two rules tie at 0.7: the first of them in registry order is kept,
    not the last one and not the alphabetically smallest. *)
Lemma first_maximum_wins_on_a_tie :
  yields (score_rules (R := demo_runtime tied_registry)
            one_row one_row 0 tied_registry 0 None)
         ((7 # 10)%Q, Some "spam").
Proof.
  apply (first_maximum_wins (R := demo_runtime tied_registry)
           one_row one_row 0 [("zeta", (1 # 5)%Q)] [("alpha", (7 # 10)%Q)]
           "spam" (7 # 10)%Q).
  - repeat constructor.
  - reflexivity.
  - intros r' p' [H | []]. injection H as _ <-. reflexivity.
  - intros r' p' [H | []]. injection H as _ <-. apply Qle_refl.
Defined.

Lemma empty_batch_witness :
  process_line (R := demo_runtime spam_registry) None (jtext "{'comments': []}")
  = (Emitted empty_response, Some (PyList []), []).
Proof.
  apply (empty_batch_short_circuit (R := demo_runtime spam_registry)
           None (jtext "{'comments': []}")).
  - vm_compute. discriminate.
  - reflexivity.
Defined.

Lemma empty_registry_witness :
  printed (process_line (R := demo_runtime []) None
             (jtext "{'comments': ['a', null]}"))
  = Emitted (success_response (PyList [PyStr "a"; PyNone])
               (repeat (PyDict [("probability", PyFloat 0);
                                ("status", PyStr "Safe");
                                ("rule", PyStr "")]) 2)).
Proof.
  apply (empty_registry_scores_safe (R := demo_runtime []) None
           (jtext "{'comments': ['a', null]}")
           [PyStr "a"; PyNone] [Some "a"; None]
           (bag ["buy"; "free"] ["a"; ""])).
  - reflexivity.
  - vm_compute. discriminate.
  - reflexivity.
  - discriminate.
  - reflexivity.
  - reflexivity.
Defined.

Lemma printed_violation_witness :
  exists r,
    field "rule" (violation_entry (9 # 10) "spam") = Some (PyStr r)
    /\ In r (map fst (models (Runtime := demo_runtime spam_registry))).
Proof.
  apply (printed_violation_names_registered_rule
           (R := demo_runtime spam_registry) None spam_line
           (success_response (PyList [PyStr "Buy now!!! http://spam.biz"])
              [violation_entry (9 # 10) "spam"])
           [violation_entry (9 # 10) "spam"]
           (violation_entry (9 # 10) "spam")).
  - vm_compute. reflexivity.
  - reflexivity.
  - now left.
  - reflexivity.
Defined.

(* ================================================================== *)
(** * Further properties *)

(* ------------------------------------------------------------------ *)
(** ** Strings *)

Lemma length_app (a b : string) :
  String.length (a ++ b) = String.length a + String.length b.
Proof. induction a as [| c a IH]; simpl; [reflexivity | now rewrite IH]. Qed.

Lemma app_assoc_string (a b c : string) : (a ++ b) ++ c = a ++ (b ++ c).
Proof. induction a as [| x a IH]; simpl; [reflexivity | now rewrite IH]. Qed.

Lemma app_empty_r (a : string) : a ++ "" = a.
Proof. induction a as [| x a IH]; simpl; [reflexivity | now rewrite IH]. Qed.

Lemma prefix_spec (p s : string) :
  String.prefix p s = true <-> exists t, s = p ++ t.
Proof.
  revert s. induction p as [| c p IH]; intros s.
  - split; [intros _; now exists s | intros _; now destruct s].
  - destruct s as [| d s]; simpl.
    + split; [discriminate | intros [t H]; discriminate H].
    + destruct (ascii_dec c d) as [-> | Hne].
      * rewrite IH. split; intros [t H]; exists t.
        -- now rewrite H.
        -- now injection H.
      * split; [discriminate |]. intros [t H]. injection H as H _.
        now elim Hne.
Qed.

Lemma endswith_spec (p s : string) :
  endswith p s = true <-> exists t, s = t ++ p.
Proof.
  induction s as [| c s IH]; cbn [endswith].
  - rewrite orb_false_r, String.eqb_eq. split.
    + intros <-. now exists "".
    + intros [t H]. destruct t; [exact H | discriminate H].
  - rewrite orb_true_iff, String.eqb_eq, IH. split.
    + intros [<- | [t ->]]; [now exists "" | now exists (String c t)].
    + intros [t H]. destruct t as [| d t].
      * left. exact H.
      * right. injection H as _ H. now exists t.
Qed.

Lemma substring_skip (a s : string) (n : nat) :
  substring (String.length a) n (a ++ s) = substring 0 n s.
Proof. induction a as [| c a IH]; simpl; [reflexivity | exact IH]. Qed.

Lemma substring_take (a s : string) :
  substring 0 (String.length a) (a ++ s) = a.
Proof.
  induction a as [| c a IH]; simpl.
  - now destruct s.
  - now rewrite IH.
Qed.

(** When [p ++ t] ends with [sfx], either [t] already does, or [t] is
    shorter than [sfx]. *)
Lemma suffix_of_append (p t t0 sfx : string) :
  p ++ t = t0 ++ sfx ->
  (exists name, t = name ++ sfx) \/ String.length t < String.length sfx.
Proof.
  revert t0. induction p as [| c p IH]; intros t0 H.
  - left. now exists t0.
  - destruct t0 as [| d t0].
    + right. simpl in H. rewrite <- H. simpl. rewrite length_app. lia.
    + injection H as _ H. now apply (IH t0).
Qed.

(* ------------------------------------------------------------------ *)
(** ** The registry of models *)

Lemma model_file_of_name (name : string) :
  is_model_file (model_prefix ++ name ++ model_suffix) = true.
Proof.
  unfold is_model_file. apply andb_true_iff. split.
  - apply prefix_spec. now exists (name ++ model_suffix).
  - apply endswith_spec. exists (model_prefix ++ name).
    now rewrite app_assoc_string.
Qed.

Lemma rule_name_of_name (name : string) :
  rule_name_of (model_prefix ++ name ++ model_suffix) = name.
Proof.
  unfold rule_name_of. rewrite substring_skip.
  rewrite !length_app.
  replace (String.length model_prefix
           + (String.length name + String.length model_suffix) - 4
           - String.length model_prefix)
    with (String.length name) by (simpl; lia).
  apply substring_take.
Qed.

Lemma model_file_shape (file : string) :
  is_model_file file = true ->
  exists name, file = model_prefix ++ name ++ model_suffix.
Proof.
  unfold is_model_file. rewrite andb_true_iff, prefix_spec.
  intros [[t ->] Hend].
  pose proof Hend as Hend'. apply endswith_spec in Hend'.
  destruct Hend' as [t0 H0].
  destruct (suffix_of_append _ _ _ _ H0) as [[name ->] | Hshort].
  - now exists name.
  - exfalso. clear H0.
    destruct t as [| a [| b [| c [| d t]]]];
      try (simpl in Hshort; lia);
      cbn in Hend;
      repeat match type of Hend with
             | context [Ascii.eqb ?x ?y] => destruct (Ascii.eqb x y)
             end;
      discriminate Hend.
Qed.

(** X1.  A file name passes the test of line 35 exactly when it is
    [logreg_model_rule_], a rule name and [.pkl]; line 36 then gives
    back that rule name, the empty one included. *)
Theorem model_file_names_round_trip (file : string) :
  (is_model_file file = true <->
   exists name, file = model_prefix ++ name ++ model_suffix)
  /\ (forall name,
        rule_name_of (model_prefix ++ name ++ model_suffix) = name)
  /\ (is_model_file file = true ->
      file = model_prefix ++ rule_name_of file ++ model_suffix).
Proof.
  split; [split | split].
  - apply model_file_shape.
  - intros [name ->]. apply model_file_of_name.
  - apply rule_name_of_name.
  - intros H. destruct (model_file_shape file H) as [name ->].
    now rewrite rule_name_of_name.
Qed.

Lemma rule_name_injective (f g : string) :
  is_model_file f = true -> is_model_file g = true ->
  rule_name_of f = rule_name_of g -> f = g.
Proof.
  intros Hf Hg H.
  destruct (model_file_shape f Hf) as [n ->].
  destruct (model_file_shape g Hg) as [m ->].
  rewrite !rule_name_of_name in H. now subst m.
Qed.

Section LoadingFacts.
Variable model : Type.
Variable load : string -> result model.

Lemma registry_set_fresh (key : string) (m : model)
  (registry : list (string * model)) :
  ~ In key (map fst registry) ->
  registry_set model key m registry = (registry ++ [(key, m)])%list.
Proof.
  induction registry as [| [k old] registry IH]; intros Hfresh.
  - reflexivity.
  - cbn [registry_set]. destruct (String.eqb_spec k key) as [-> | _].
    + exfalso. apply Hfresh. now left.
    + simpl. rewrite IH; [reflexivity |].
      intros Hin. apply Hfresh. now right.
Qed.

Lemma load_models_keys (files : list string) :
  NoDup files ->
  forall registry loaded,
    (forall file, In file files -> is_model_file file = true ->
                  ~ In (rule_name_of file) (map fst registry)) ->
    load_models model load files registry = inr loaded ->
    map fst loaded
    = (map fst registry
       ++ map rule_name_of (filter is_model_file files))%list.
Proof.
  induction 1 as [| file files Hnotin Hnodup IH]; intros registry loaded Hfresh H.
  - cbn in H. injection H as <-. simpl. now rewrite app_nil_r.
  - cbn [load_models] in H. cbn [filter].
    destruct (is_model_file file) eqn:Hfile.
    + destruct (load file) as [e | m]; [discriminate |].
      assert (Hnew : ~ In (rule_name_of file) (map fst registry))
        by (apply Hfresh; [now left | exact Hfile]).
      rewrite (registry_set_fresh _ _ _ Hnew) in H.
      assert (Hnext : forall g, In g files -> is_model_file g = true ->
                ~ In (rule_name_of g)
                     (map fst (registry ++ [(rule_name_of file, m)])%list)).
      { intros g Hg Hgfile. rewrite map_app, in_app_iff. simpl.
        intros [Hin | [Heq | []]].
        - apply (Hfresh g); [now right | exact Hgfile | exact Hin].
        - apply Hnotin.
          now rewrite (rule_name_injective file g Hfile Hgfile Heq). }
      rewrite (IH _ _ Hnext H).
      rewrite map_app. simpl. now rewrite <- app_assoc.
    + apply (IH _ _ (fun g Hg => Hfresh g (or_intror Hg)) H).
Qed.

(** X2.  From a listing without repeated names, the registry gets one
    entry per model file, keyed by its rule name, in listing order:
    two model files never share a key, and other files leave no
    trace. *)
Theorem registry_keys_follow_listing (files : list string)
  (loaded : list (string * model)) :
  NoDup files ->
  load_models model load files [] = inr loaded ->
  map fst loaded = map rule_name_of (filter is_model_file files)
  /\ NoDup (map fst loaded)
  /\ List.length loaded = List.length (filter is_model_file files).
Proof.
  intros Hnodup H.
  assert (Hkeys : map fst loaded
                  = map rule_name_of (filter is_model_file files)).
  { rewrite (load_models_keys files Hnodup [] loaded); [reflexivity | | exact H].
    intros file _ _ []. }
  split; [exact Hkeys | split].
  - rewrite Hkeys. clear H Hkeys loaded.
    induction Hnodup as [| file files Hnotin Hnodup IH]; [constructor |].
    cbn [filter]. destruct (is_model_file file) eqn:Hfile; [| exact IH].
    simpl. constructor; [| exact IH].
    intros Hin. apply in_map_iff in Hin. destruct Hin as [g [Hname Hg]].
    apply filter_In in Hg. destruct Hg as [Hg Hgfile].
    apply Hnotin.
    now rewrite <- (rule_name_injective g file Hgfile Hfile Hname).
  - rewrite <- (length_map fst loaded), Hkeys. apply length_map.
Qed.

End LoadingFacts.

(* ------------------------------------------------------------------ *)
(** ** Cleaned text *)


Lemma lower_length (s : string) : String.length (lower s) = String.length s.
Proof. induction s as [| c s IH]; simpl; [reflexivity | now rewrite IH]. Qed.





(* ------------------------------------------------------------------ *)
(** ** More on the numeric features *)

Lemma split_from_count (s : string) :
  forall cur,
    (2 * List.length (split_from s cur)
     <= String.length s + match cur with EmptyString => 1 | _ => 2 end)%nat.
Proof.
  induction s as [| c s IH]; intros cur.
  - destruct cur; simpl; lia.
  - cbn [split_from]. destruct (isspace c).
    + destruct cur as [| d cur].
      * specialize (IH ""). simpl in *. lia.
      * specialize (IH ""). simpl in *. lia.
    + specialize (IH (cur ++ String c "")).
      destruct cur as [| d cur]; simpl in *; lia.
Qed.

Lemma split_from_empty (s : string) :
  forall cur,
    split_from s cur = [] <-> cur = "" /\ all_chars isspace s = true.
Proof.
  induction s as [| c s IH]; intros cur.
  - destruct cur; simpl; split; try tauto; try discriminate.
    intros [H _]. discriminate H.
  - cbn [split_from all_chars]. destruct (isspace c); simpl.
    + destruct cur as [| d cur].
      * apply IH.
      * split; [discriminate | intros [H _]; discriminate H].
    + rewrite IH. split.
      * intros [H _]. destruct cur; discriminate H.
      * intros [_ H]. discriminate H.
Qed.

Lemma marks_disjoint (s : string) :
  (count_char "!" s + count_char "?" s <= len s)%Z.
Proof.
  unfold count_char, len. induction s as [| c s IH]; [simpl; lia |].
  cbn [count_if]. simpl String.length.
  destruct (Ascii.eqb_spec "!" c) as [E1 | _];
    destruct (Ascii.eqb_spec "?" c) as [E2 | _];
    try (rewrite <- E1 in E2; discriminate E2); lia.
Qed.

Lemma contains_length (pat s : string) :
  contains pat s -> (String.length pat <= String.length s)%nat.
Proof. intros [pre [post ->]]. rewrite !length_app. lia. Qed.


(** X4.  Every row [add_numeric_features] makes keeps these bounds:
    no count is negative; between two words stands at least one
    whitespace character, so twice the word count is at most the
    length plus one; exclamation and question marks together do not
    outnumber the characters; [has_url] is 0 or 1, and 1 only for
    bodies of at least seven characters. *)
Theorem feature_bounds (x : cell) (fv : NumericFeatureVector) :
  numeric_features x = inr fv ->
  body_length fv = len (fillna x)
  /\ (0 <= word_count fv /\ 2 * word_count fv <= body_length fv + 1)%Z
  /\ (0 <= exclamations fv /\ 0 <= questions fv
      /\ exclamations fv + questions fv <= body_length fv)%Z
  /\ (has_url fv = 0%Z \/ has_url fv = 1%Z /\ (7 <= body_length fv)%Z).
Proof.
  unfold numeric_features. destruct (upper_ratio (fillna x)); [discriminate |].
  intros H. injection H as <-.
  cbn [body_length word_count has_url exclamations questions].
  pose proof (split_from_count (fillna x) "") as Hwords.
  pose proof (count_if_bounds (Ascii.eqb "!") (fillna x)) as Hex.
  pose proof (count_if_bounds (Ascii.eqb "?") (fillna x)) as Hqu.
  pose proof (marks_disjoint (fillna x)) as Hmarks.
  unfold count_char, split, len in *.
  repeat split; try lia.
  unfold url_flag. destruct (re_search url_pattern (fillna x)) eqn:E.
  - right. split; [reflexivity |].
    apply url_search_spec in E.
    destruct E as [E | E]; apply contains_length in E; simpl in E; lia.
  - now left.
Qed.

Lemma feature_bounds_witness :
  exists fv, numeric_features (Some "Is it? No!") = inr fv
             /\ (2 * word_count fv <= body_length fv + 1)%Z.
Proof.
  eexists. split; [reflexivity |].
  apply (feature_bounds (Some "Is it? No!") _ eq_refl).
Defined.

(** X5.  The word count of a body is 0 exactly when the body has
    nothing but whitespace (the empty body and [None] included), and
    the uppercase ratio is 0 exactly when no character is uppercase
    and 1 exactly when the body is not empty and every character is
    uppercase. *)
Theorem feature_extremes (x : cell) (fv : NumericFeatureVector) :
  numeric_features x = inr fv ->
  (word_count fv = 0%Z <-> all_chars isspace (fillna x) = true)
  /\ (Qeq (uppercase_ratio fv) 0 <-> count_if isupper (fillna x) = 0%Z)
  /\ (Qeq (uppercase_ratio fv) 1 <->
      fillna x <> "" /\ all_chars isupper (fillna x) = true).
Proof.
  unfold numeric_features, upper_ratio.
  pose proof (count_if_bounds isupper (fillna x)) as Hc.
  assert (Hlen : (0 <= len (fillna x))%Z) by (unfold len; lia).
  rewrite truediv_nonzero by lia.
  intros H. injection H as <-. cbn [word_count uppercase_ratio].
  set (a := count_if isupper (fillna x)) in *.
  set (b := Z.max (len (fillna x)) 1).
  assert (Hb : ~ Qeq (inject_Z b) 0).
  { unfold Qeq. simpl. unfold b. lia. }
  split; [| split].
  - unfold split. split; intros H.
    + destruct (split_from (fillna x) "") eqn:E.
      * now apply split_from_empty in E.
      * simpl List.length in H. lia.
    + assert (E : split_from (fillna x) "" = [])
        by (apply split_from_empty; now split).
      now rewrite E.
  - split.
    + intros H.
      assert (E : Qeq (inject_Z a) (inject_Z 0)).
      { rewrite <- (Qmult_div_r (inject_Z a) (inject_Z b) Hb), H.
        now rewrite Qmult_0_r. }
      unfold Qeq in E. simpl in E. lia.
    + intros ->. unfold Qdiv. now rewrite Qmult_0_l.
  - assert (Hall : forall s, all_chars isupper s = true
                             <-> count_if isupper s = len s).
    { clear. unfold len. induction s as [| c s IH]; [simpl; tauto |].
      cbn [all_chars count_if String.length]. rewrite Nat2Z.inj_succ.
      pose proof (count_if_bounds isupper s) as Hb. unfold len in Hb.
      destruct (isupper c); cbn [andb].
      - rewrite IH. lia.
      - split; [discriminate | lia]. }
    rewrite Hall. fold a. split.
    + intros H.
      assert (E : Qeq (inject_Z a) (inject_Z b)).
      { rewrite <- (Qmult_div_r (inject_Z a) (inject_Z b) Hb), H.
        now rewrite Qmult_1_r. }
      unfold Qeq in E. simpl in E.
      assert (Hab : a = b) by lia. split.
      * intros Hempty. unfold b in Hab. rewrite Hempty in Hc, Hab.
        unfold len in Hc, Hab. simpl in Hc, Hab. lia.
      * unfold b in Hab. lia.
    + intros [Hne Ha].
      assert (Hpos : (1 <= len (fillna x))%Z).
      { unfold len. destruct (fillna x); [now elim Hne | simpl; lia]. }
      assert (Hab : a = b) by (unfold b; lia).
      rewrite Hab. unfold Qdiv. now apply Qmult_inv_r.
Qed.

Lemma feature_extremes_witness :
  exists fv, numeric_features (Some "SHOUT") = inr fv
             /\ Qeq (uppercase_ratio fv) 1.
Proof.
  eexists. split; [reflexivity |].
  apply (feature_extremes (Some "SHOUT") _ eq_refl).
  split; [discriminate | reflexivity].
Defined.

(* ------------------------------------------------------------------ *)
(** ** More on scoring *)

Lemma yields_functional {A} (m : M A) (a b : A) :
  yields m a -> yields m b -> a = b.
Proof. unfold yields. intros Ha Hb. rewrite Ha in Hb. now injection Hb. Qed.

Lemma run_bind {A B} (m : M A) (f : A -> M B) (w w' : list work) (a : A)
  (r : result B) :
  m = (w, inr a) -> f a = (w', r) -> bind m f = ((w ++ w')%list, r).
Proof. intros -> H. unfold bind. now rewrite H. Qed.

Lemma status_of_Qeq (m m' : Q) : Qeq m m' -> status_of m = status_of m'.
Proof.
  intros E. unfold status_of.
  destruct (Qle_bool (1 # 2) m) eqn:H; destruct (Qle_bool (1 # 2) m') eqn:H';
    try reflexivity; exfalso.
  - apply Qle_bool_iff in H. rewrite E in H. apply Qle_bool_iff in H.
    congruence.
  - apply Qle_bool_iff in H'. rewrite <- E in H'. apply Qle_bool_iff in H'.
    congruence.
Qed.

Section ScoringFacts.
Context {R : Runtime}.
Variables X_body X_num : matrix.
Variable i : nat.

Lemma probabilities_to_registry ms ps r p :
  probabilities X_body X_num i ms ps -> In (r, p) ps ->
  exists model, In (r, model) ms
                /\ yields (rule_probability X_body X_num i r model) p.
Proof.
  induction 1 as [| [name model] [name' prob] ms ps [Hname Hprob] _ IH];
    intros Hin; [destruct Hin |].
  simpl in Hname, Hprob. subst name'. destruct Hin as [Hin | Hin].
  - injection Hin as <- <-. exists model. split; [now left | exact Hprob].
  - destruct (IH Hin) as [model' [Hm Hy]]. exists model'.
    split; [now right | exact Hy].
Qed.

Lemma probabilities_of_registry ms ps r model :
  probabilities X_body X_num i ms ps -> In (r, model) ms ->
  exists p, In (r, p) ps
            /\ yields (rule_probability X_body X_num i r model) p.
Proof.
  induction 1 as [| [name model'] [name' prob] ms ps [Hname Hprob] _ IH];
    intros Hin; [destruct Hin |].
  simpl in Hname, Hprob. subst name'. destruct Hin as [Hin | Hin].
  - injection Hin as <- <-. exists prob. split; [now left | exact Hprob].
  - destruct (IH Hin) as [p [Hp Hy]]. exists p.
    split; [now right | exact Hy].
Qed.

Lemma rule_probability_run r model p :
  yields (rule_probability X_body X_num i r model) p ->
  rule_probability X_body X_num i r model = (rule_work r i, inr p).
Proof.
  unfold yields, rule_probability, rule_work, bind, call.
  destruct (rule_tfidf [r]) as [e | X_rule]; [discriminate |].
  destruct (getrow X_body i) as [e | xb]; [discriminate |].
  destruct (getrow X_num i) as [e | xn]; [discriminate |].
  destruct (hstack [xb; X_rule; xn]) as [e | X_final]; [discriminate |].
  simpl. now intros ->.
Qed.

Lemma score_rules_run ms ps :
  probabilities X_body X_num i ms ps ->
  forall max_prob rule,
    score_rules X_body X_num i ms max_prob rule
    = (flat_map (fun m => rule_work (fst m) i) ms,
       inr (select ps max_prob rule)).
Proof.
  induction 1 as [| [name model] [name' prob] ms ps [Hname Hprob] _ IH];
    intros max_prob rule.
  - reflexivity.
  - simpl in Hname, Hprob. subst name'. cbn [score_rules select flat_map fst].
    apply run_bind with (a := prob);
      [now apply rule_probability_run |].
    destruct (Qgtb prob max_prob); apply IH.
Qed.

Lemma score_comment_run entry :
  yields (score_comment X_body X_num i) entry ->
  score_comment X_body X_num i
  = (flat_map (fun m => rule_work (fst m) i) models, inr entry).
Proof.
  intros H. destruct (score_comment_inv X_body X_num i entry H) as [ps [Hps ->]].
  unfold score_comment.
  rewrite <- (app_nil_r (flat_map _ models)).
  apply run_bind with (a := select ps 0 None);
    [now apply score_rules_run |].
  now destruct (select ps 0 None).
Qed.

Lemma scored_entry_of_select ps m v :
  select ps 0 None = (m, v) ->
  scored_entry (map fst ps) (result_entry m v).
Proof.
  intros E. destruct (select_bounds _ _ _ _ _ E) as [Hpos _].
  exists m. split; [exact Hpos |].
  destruct (Qlt_le_dec m (1 # 2)) as [Hlt | Hle].
  - left. split; [exact Hlt | now apply result_entry_safe].
  - right. split; [exact Hle |].
    destruct (select_origin _ _ _ _ _ E) as [[-> _] | [r [-> [Hin _]]]].
    + exfalso. now apply (Qlt_not_le 0 (1 # 2)).
    + exists r. split; [| now apply result_entry_violates].
      change r with (fst (r, m)). now apply in_map.
Qed.

Lemma scored_entry_of_comment entry :
  yields (score_comment X_body X_num i) entry ->
  scored_entry (map fst models) entry.
Proof.
  intros H. destruct (score_comment_inv X_body X_num i entry H) as [ps [Hps ->]].
  rewrite <- (probabilities_names X_body X_num i _ _ Hps).
  apply scored_entry_of_select. now destruct (select ps 0 None).
Qed.

(** X6.  The probability an entry reports is the largest the models
    gave, or 0 when none is positive: it is not negative, no model's
    probability exceeds it, and it is 0 or the probability of some
    rule. *)
Theorem reported_probability_is_the_maximum ps entry :
  probabilities X_body X_num i models ps ->
  yields (score_comment X_body X_num i) entry ->
  exists m, field "probability" entry = Some (PyFloat m)
            /\ (0 <= m)%Q
            /\ (forall r p, In (r, p) ps -> (p <= m)%Q)
            /\ (m = 0%Q \/ exists r, In (r, m) ps).
Proof.
  intros Hps H.
  pose proof (score_comment_select X_body X_num i ps Hps) as H'.
  rewrite (yields_functional _ _ _ H H').
  destruct (select ps 0 None) as [m v] eqn:E. cbn [fst snd].
  destruct (select_bounds _ _ _ _ _ E) as [Hpos Hmax].
  exists m. repeat split; try assumption.
  destruct (select_origin _ _ _ _ _ E) as [[-> _] | [r [_ [Hin _]]]];
    [now left | right; now exists r].
Qed.

(** X7.  The order of the registry does not change what a comment is
    charged with: two registries with the same entries give the same
    probability and the same status (only the rule named on a tie can
    differ). *)
Theorem registry_order_is_irrelevant ms ms' m v m' v' :
  (forall x, In x ms <-> In x ms') ->
  yields (score_rules X_body X_num i ms 0 None) (m, v) ->
  yields (score_rules X_body X_num i ms' 0 None) (m', v') ->
  Qeq m m' /\ status_of m = status_of m'.
Proof.
  intros Hsame H H'.
  destruct (score_rules_inv X_body X_num i _ _ _ _ H) as [ps [Hps E]].
  destruct (score_rules_inv X_body X_num i _ _ _ _ H') as [ps' [Hps' E']].
  symmetry in E, E'.
  assert (Hle : forall a b qs qs' y y' w w',
             (forall x, In x a -> In x b) ->
             probabilities X_body X_num i a qs ->
             probabilities X_body X_num i b qs' ->
             select qs 0 None = (y, w) -> select qs' 0 None = (y', w') ->
             (y <= y')%Q).
  { intros a b qs qs' y y' w w' Hsub Ha Hb Ey Ey'.
    destruct (select_bounds _ _ _ _ _ Ey') as [Hpos' Hmax'].
    destruct (select_origin _ _ _ _ _ Ey) as [[-> _] | [r [_ [Hin _]]]];
      [exact Hpos' |].
    destruct (probabilities_to_registry _ _ _ _ Ha Hin) as [model [Hm Hy]].
    destruct (probabilities_of_registry _ _ _ _ Hb (Hsub _ Hm))
      as [p' [Hp' Hy']].
    rewrite (yields_functional _ _ _ Hy Hy'). now apply (Hmax' r). }
  assert (Heq : Qeq m m').
  { apply Qle_antisym.
    - apply (Hle ms ms' ps ps' m m' v v'); auto. intros x. apply Hsame.
    - apply (Hle ms' ms ps' ps m' m v' v); auto. intros x. apply Hsame. }
  split; [exact Heq | now apply status_of_Qeq].
Qed.

End ScoringFacts.

(* ------------------------------------------------------------------ *)
(** ** More on the request loop *)

Section LoopFacts.
Context {R : Runtime}.

(** The five ways one turn of the loop can go. *)
Lemma process_line_cases (st : locals) (raw : string) :
  (strip raw = "" /\ process_line st raw = (Skipped, st, []))
  \/ (strip raw <> "" /\
      ((exists e, decode_request (strip raw) = inl e
                  /\ process_line st raw = (except_handler st e, st, []))
       \/ (exists c, decode_request (strip raw) = inr c
                     /\ truthy c = false
                     /\ process_line st raw
                        = (Emitted empty_response, Some c, []))
       \/ (exists c w results,
              decode_request (strip raw) = inr c /\ truthy c = true
              /\ score_batch c = (w, inr results)
              /\ process_line st raw
                 = (Emitted (success_response c results), Some c, w))
       \/ (exists c w e,
              decode_request (strip raw) = inr c /\ truthy c = true
              /\ score_batch c = (w, inl e)
              /\ process_line st raw
                 = (except_handler (Some c) e, Some c, w)))).
Proof.
  destruct (String.eqb_spec (strip raw) "") as [Hblank | Hline].
  - left. split; [exact Hblank | now apply blank_line_skipped].
  - right. split; [exact Hline |]. unfold process_line.
    destruct (strip raw) as [| a s] eqn:E; [now elim Hline |].
    destruct (decode_request (String a s)) as [e | c].
    + left. now exists e.
    + right. destruct (truthy c) eqn:Ht; cbn [negb].
      * right. destruct (score_batch c) as [w [e | results]] eqn:Es.
        -- right. now exists c, w, e.
        -- left. now exists c, w, results.
      * left. now exists c.
Qed.

Lemma handler_with_iterable (c : pyval) (n : nat) (e : exn) :
  iter_len c = Some n ->
  except_handler (Some c) e
  = Emitted (PyDict [("comments", c);
                     ("results", PyList (repeat (error_entry e) n))]).
Proof. intros H. unfold except_handler. now rewrite H. Qed.

Lemma nonblank_never_skipped (st : locals) (raw : string) :
  strip raw <> "" -> printed (process_line st raw) <> Skipped.
Proof.
  intros Hline.
  destruct (process_line_cases st raw)
    as [[Hb _] | [_ [[e [_ ->]] | [[c [_ [_ ->]]]
                    | [[c [w [rs [_ [_ [_ ->]]]]]] | [c [w [e [_ [_ [_ ->]]]]]]]]]]];
    [contradiction | | discriminate | discriminate |];
    unfold printed; cbn [fst]; unfold except_handler.
  - destruct st as [c |]; [destruct (iter_len c) |]; discriminate.
  - destruct (iter_len c); discriminate.
Qed.

Lemma is_blank_spec (raw : string) : is_blank raw = true <-> strip raw = "".
Proof. unfold is_blank. apply String.eqb_eq. Qed.

(** X8.  Blank lines are transparent: a session prints the same
    responses and ends the same way as the session without its blank
    lines. *)
Theorem blank_lines_are_transparent (st : locals) (lines : list string) :
  serve st lines = serve st (nonblank lines).
Proof.
  revert st. induction lines as [| raw lines IH]; intros st; [reflexivity |].
  unfold nonblank. cbn [filter]. fold (nonblank lines).
  destruct (is_blank raw) eqn:Hb; cbn [negb].
  - apply is_blank_spec in Hb. cbn [serve].
    rewrite (blank_line_skipped st raw Hb). apply IH.
  - cbn [serve]. destruct (process_line st raw) as [[[| r | f] st'] w];
      [apply IH | now rewrite IH | reflexivity].
Qed.

Lemma response_count (st : locals) (lines : list string) :
  (List.length (responses (serve st lines)) <= List.length (nonblank lines))%nat
  /\ (exit (serve st lines) = None ->
      List.length (responses (serve st lines)) = List.length (nonblank lines)).
Proof.
  revert st. induction lines as [| raw lines IH]; intros st.
  - split; reflexivity.
  - unfold nonblank. cbn [filter serve]. fold (nonblank lines).
    destruct (is_blank raw) eqn:Hb; cbn [negb].
    + apply is_blank_spec in Hb.
      rewrite (blank_line_skipped st raw Hb). apply IH.
    + assert (Hline : strip raw <> "").
      { intros H. apply is_blank_spec in H. congruence. }
      pose proof (nonblank_never_skipped st raw Hline) as Hskip.
      unfold printed in Hskip.
      destruct (process_line st raw) as [[[| r | f] st'] w]; cbn [fst] in Hskip.
      * now elim Hskip.
      * cbn [responses exit List.length]. destruct (IH st') as [Hle Heq].
        split; [lia | intros H; now rewrite (Heq H)].
      * cbn [responses exit List.length]. split; [lia | discriminate].
Qed.

(** X9.  A session never prints more responses than it has non-blank
    lines, and one that reaches the end of its input has printed
    exactly one response per non-blank line. *)
Theorem one_response_per_request (st : locals) (lines : list string) :
  (List.length (responses (serve st lines)) <= List.length (nonblank lines))%nat
  /\ (exit (serve st lines) = None ->
      List.length (responses (serve st lines)) = List.length (nonblank lines)).
Proof. apply response_count. Qed.

(** X10.  Once [comments] is bound to something iterable, the loop
    survives everything, malformed lines included, as long as no
    request binds [comments] to a value that cannot be iterated: the
    session reaches the end of its input with one response per
    non-blank line. *)
Theorem loop_survives_while_comments_iterable (st : locals)
  (lines : list string) :
  (exists c n, st = Some c /\ iter_len c = Some n) ->
  Forall (fun raw => forall c, decode_request (strip raw) = inr c ->
                               iter_len c <> None) lines ->
  exit (serve st lines) = None
  /\ List.length (responses (serve st lines)) = List.length (nonblank lines).
Proof.
  intros Hst Hlines.
  assert (Hexit : exit (serve st lines) = None).
  { revert st Hst. induction Hlines as [| raw lines Hraw _ IH]; intros st Hst;
      [reflexivity |].
    cbn [serve].
    assert (Hbound : forall c, decode_request (strip raw) = inr c ->
                               exists c' n, Some c = Some c'
                                            /\ iter_len c' = Some n).
    { intros c Hc. specialize (Hraw c Hc).
      destruct (iter_len c) as [n |] eqn:E; [| now elim Hraw].
      now exists c, n. }
    destruct Hst as [c0 [n0 [-> Hn0]]].
    destruct (process_line_cases (Some c0) raw)
      as [[_ ->] | [_ [[e [_ ->]] | [[c [Hc [_ ->]]]
           | [[c [w [rs [Hc [_ [_ ->]]]]]] | [c [w [e [Hc [_ [_ ->]]]]]]]]]]].
    - apply IH. now exists c0, n0.
    - rewrite (handler_with_iterable c0 n0 e Hn0). cbn [exit].
      apply IH. now exists c0, n0.
    - cbn [exit]. apply IH. now apply Hbound.
    - cbn [exit]. apply IH. now apply Hbound.
    - destruct (Hbound c Hc) as [c' [n [Hc' Hn]]]. injection Hc' as <-.
      rewrite (handler_with_iterable c n e Hn). cbn [exit].
      apply IH. now exists c, n. }
  split; [exact Hexit |].
  now apply response_count.
Qed.

End LoopFacts.

Section RequestFacts.
Context {R : Runtime}.

Lemma score_rows_run (X_body X_num : matrix) (n : nat) :
  forall i entries,
    yields (score_rows X_body X_num i n) entries ->
    score_rows X_body X_num i n
    = (flat_map (fun j => flat_map (fun m => rule_work (fst m) j) models)
                (seq i n),
       inr entries)
    /\ List.length entries = n
    /\ Forall (scored_entry (map fst models)) entries.
Proof.
  induction n as [| n IH]; intros i entries H.
  - apply (proj1 (yields_ret [] entries)) in H. subst entries.
    repeat split. constructor.
  - cbn [score_rows] in H. apply yields_bind in H.
    destruct H as [first [Hfirst H]]. apply yields_bind in H.
    destruct H as [others [Hothers H]].
    apply (proj1 (yields_ret (first :: others) entries)) in H. subst entries.
    destruct (IH (S i) others Hothers) as [Hrun [Hlen Hall]].
    repeat split.
    + cbn [score_rows seq flat_map].
      apply run_bind with (a := first);
        [now apply score_comment_run |].
      rewrite <- (app_nil_r (flat_map _ (seq (S i) n))).
      now apply run_bind with (a := others).
    + simpl. now rewrite Hlen.
    + constructor; [| exact Hall].
      now apply (scored_entry_of_comment X_body X_num i).
Qed.

Lemma regular_frame_run (items : list pyval) (df : list cell) :
  as_cells items = Some df ->
  exists rows,
    map fst rows = df
    /\ build_frame (PyList items)
       = match body_tfidf (map clean_text df) with
         | inl e =>
             ([FeatureExtraction (PyList items);
               BodyTransform (map clean_text df)], inl e)
         | inr X =>
             ([FeatureExtraction (PyList items);
               BodyTransform (map clean_text df); NumericMatrix],
              inr (List.length items, X,
                   csr_matrix (map (fun row => num_values (snd row)) rows)))
         end.
Proof.
  intros Hdf. unfold build_frame. cbn [regular_batch]. rewrite Hdf.
  destruct (add_numeric_features_total df) as [rows [Hrows Hfst]].
  exists rows. split; [exact Hfst |]. rewrite Hrows.
  assert (Htexts : map (fun row : cell * NumericFeatureVector =>
                          clean_text (fst row)) rows = map clean_text df)
    by (rewrite <- Hfst; now rewrite map_map).
  assert (Hlen : List.length rows = List.length items)
    by (rewrite <- (as_cells_length items df Hdf), <- Hfst;
        now rewrite length_map).
  unfold bind, call. rewrite Htexts, Hlen.
  now destruct (body_tfidf (map clean_text df)).
Qed.

(** X11.  Failure is reported for the whole batch: when anything
    raises while a list of comments is being scored, the response
    repeats the batch and holds one error entry per comment, all
    with the same message; results already computed are dropped. *)
Theorem failed_batch_is_reported_whole (st : locals) (raw : string)
  (items : list pyval) (w : list work) (e : exn) :
  strip raw <> "" ->
  decode_request (strip raw) = inr (PyList items) ->
  items <> [] ->
  score_batch (PyList items) = (w, inl e) ->
  printed (process_line st raw)
  = Emitted (PyDict [("comments", PyList items);
                     ("results",
                      PyList (repeat
                                (PyDict [("probability", PyFloat 0);
                                         ("status", PyStr "Error");
                                         ("rule", PyStr "");
                                         ("error", PyStr (str_exn e))])
                                (List.length items)))]).
Proof.
  intros Hline Hreq Hitems Hfail. unfold process_line, printed.
  destruct (strip raw); [contradiction |]. rewrite Hreq.
  destruct items; [contradiction |]. cbn [truthy negb].
  now rewrite Hfail.
Qed.

(** X12.  A line that decodes is answered without regard to the
    requests before it: response, binding of [comments] and work are
    the same from any two states. *)
Theorem decodable_line_ignores_history (st st' : locals) (raw : string)
  (c : pyval) :
  strip raw <> "" ->
  decode_request (strip raw) = inr c ->
  process_line st raw = process_line st' raw.
Proof.
  intros Hline H. unfold process_line.
  destruct (strip raw); [contradiction |]. now rewrite H.
Qed.

(** X13.  Sending the same line again right away gives the same
    response, the same binding and the same work. *)
Theorem repeated_line_repeats_response (st : locals) (raw : string) :
  process_line (snd (fst (process_line st raw))) raw = process_line st raw.
Proof.
  unfold process_line.
  destruct (strip raw); [reflexivity |].
  destruct (decode_request _) as [e | c]; [reflexivity |].
  destruct (truthy c); cbn [negb fst snd]; [| reflexivity].
  now destruct (score_batch c) as [w [e | results]].
Qed.

(** X14.  Whatever is printed for a non-empty batch of strings and
    nulls, scored or failed, has exactly one entry per comment. *)
Theorem one_entry_per_comment (st : locals) (raw : string)
  (items : list pyval) (df : list cell) (response : pyval)
  (entries : list pyval) :
  decode_request (strip raw) = inr (PyList items) ->
  as_cells items = Some df ->
  printed (process_line st raw) = Emitted response ->
  field "results" response = Some (PyList entries) ->
  field "comments" response = Some (PyList items)
  /\ List.length entries = List.length items.
Proof.
  intros Hreq Hdf Hprinted Hresults.
  destruct (process_line_cases st raw)
    as [[Hb H] | [_ [[e [He _]] | [[c [Hc [_ H]]]
         | [[c [w [rs [Hc [_ [Hs H]]]]]] | [c [w [e [Hc [_ [_ H]]]]]]]]]]];
    try (rewrite Hreq in *; clear Hreq);
    try discriminate;
    try (injection Hc as <-);
    rewrite H in Hprinted; unfold printed in Hprinted; cbn [fst] in Hprinted.
  - discriminate Hprinted.
  - injection Hprinted as <-. discriminate Hresults.
  - injection Hprinted as <-. injection Hresults as ->.
    split; [reflexivity |].
    assert (Hy : yields (score_batch (PyList items)) entries)
      by (unfold yields; now rewrite Hs).
    unfold score_batch in Hy. apply yields_bind in Hy.
    destruct Hy as [[[n X_body] X_num] [Hframe Hrows]].
    destruct (regular_frame_run items df Hdf) as [rows [_ Hrun]].
    unfold yields in Hframe. rewrite Hrun in Hframe.
    destruct (body_tfidf (map clean_text df)); [discriminate |].
    injection Hframe as <- _ _.
    now destruct (score_rows_run _ _ _ _ _ Hrows) as [_ [Hlen _]].
  - rewrite (handler_with_iterable (PyList items) (List.length items) e eq_refl)
      in Hprinted.
    injection Hprinted as <-. injection Hresults as <-.
    split; [reflexivity | apply repeat_length].
Qed.

(** X15.  Every printed response is the empty-batch response, or a
    list of scored entries (a probability that is not negative, with
    ["Safe"] and the empty rule below 0.5, ["Violates rule"] and a
    registered rule from 0.5 on), or a list of identical error
    entries: scored and error entries never share a response. *)
Theorem printed_response_shape (st : locals) (raw : string)
  (response : pyval) :
  printed (process_line st raw) = Emitted response ->
  response = empty_response
  \/ (exists c entries,
        response = success_response c entries
        /\ Forall (scored_entry (map fst models)) entries)
  \/ (exists c e n,
        iter_len c = Some n
        /\ response = PyDict [("comments", c);
                              ("results", PyList (repeat (error_entry e) n))]).
Proof.
  assert (Hhandler : forall st' e,
             except_handler st' e = Emitted response ->
             exists c e' n,
               iter_len c = Some n
               /\ response = PyDict [("comments", c);
                                     ("results",
                                      PyList (repeat (error_entry e') n))]).
  { intros st' e H. unfold except_handler in H.
    destruct st' as [c |]; [| discriminate].
    destruct (iter_len c) as [n |] eqn:E; [| discriminate].
    injection H as <-. now exists c, e, n. }
  intros Hprinted.
  destruct (process_line_cases st raw)
    as [[_ H] | [_ [[e [_ H]] | [[c [_ [_ H]]]
         | [[c [w [rs [_ [_ [Hs H]]]]]] | [c [w [e [_ [_ [_ H]]]]]]]]]]];
    rewrite H in Hprinted; unfold printed in Hprinted; cbn [fst] in Hprinted.
  - discriminate Hprinted.
  - right. right. now apply (Hhandler st e).
  - injection Hprinted as <-. now left.
  - injection Hprinted as <-. right. left. exists c, rs. split; [reflexivity |].
    assert (Hy : yields (score_batch c) rs) by (unfold yields; now rewrite Hs).
    unfold score_batch in Hy. apply yields_bind in Hy.
    destruct Hy as [[[n X_body] X_num] [_ Hrows]].
    now destruct (score_rows_run _ _ _ _ _ Hrows) as [_ [_ Hall]].
  - right. right. now apply (Hhandler (Some c) e).
Qed.

(** X16.  The work behind a scored batch of strings and nulls: one
    feature extraction, one body transform for the whole batch, one
    numeric matrix, then, comment by comment in batch order and rule
    by rule in registry order, a rule transform, two row accesses, a
    stacking and a prediction. *)
Theorem work_of_a_scored_batch (st : locals) (raw : string)
  (items : list pyval) (df : list cell) (results : list pyval) :
  strip raw <> "" ->
  decode_request (strip raw) = inr (PyList items) ->
  items <> [] ->
  as_cells items = Some df ->
  yields (score_batch (PyList items)) results ->
  process_line st raw
  = (Emitted (success_response (PyList items) results),
     Some (PyList items),
     ([FeatureExtraction (PyList items);
       BodyTransform (map clean_text df); NumericMatrix]
      ++ flat_map (fun j => flat_map (fun m => rule_work (fst m) j) models)
                  (seq 0 (List.length items)))%list).
Proof.
  intros Hline Hreq Hitems Hdf Hy.
  assert (Hrun : score_batch (PyList items)
                 = (([FeatureExtraction (PyList items);
                      BodyTransform (map clean_text df); NumericMatrix]
                     ++ flat_map
                          (fun j => flat_map (fun m => rule_work (fst m) j)
                                             models)
                          (seq 0 (List.length items)))%list,
                    inr results)).
  { pose proof Hy as Hy'. unfold score_batch in Hy'. apply yields_bind in Hy'.
    destruct Hy' as [[[n X_body] X_num] [Hframe Hrows]].
    destruct (regular_frame_run items df Hdf) as [rows [_ Hbuild]].
    unfold yields in Hframe. rewrite Hbuild in Hframe.
    destruct (body_tfidf (map clean_text df)) as [e | X]; [discriminate |].
    cbn [snd] in Hframe. injection Hframe as <- <- <-.
    destruct (score_rows_run _ _ _ _ _ Hrows) as [Hrows_run _].
    unfold score_batch. now apply run_bind with (a := (List.length items, X, csr_matrix (map (fun row => num_values (snd row)) rows))). }
  unfold process_line. destruct (strip raw); [contradiction |].
  rewrite Hreq. destruct items; [contradiction |]. cbn [truthy negb].
  now rewrite Hrun.
Qed.

(** X17.  A line that is JSON but not an object fails on [.get] before
    [comments] is assigned: with a list still bound from an earlier
    request, the answer is that earlier batch with one error entry
    per comment, saying that the decoded type has no attribute [get],
    and the binding stays. *)
Theorem non_object_request_reuses_batch (raw : string) (data : pyval)
  (items : list pyval) :
  strip raw <> "" ->
  json_loads (strip raw) = inr data ->
  (forall kvs, data <> PyDict kvs) ->
  process_line (Some (PyList items)) raw
  = (Emitted
       (PyDict [("comments", PyList items);
                ("results",
                 PyList (repeat
                           (PyDict [("probability", PyFloat 0);
                                    ("status", PyStr "Error");
                                    ("rule", PyStr "");
                                    ("error",
                                     PyStr ("'" ++ type_name data
                                            ++ "' object has no attribute 'get'"))])
                           (List.length items)))]),
     Some (PyList items), []).
Proof.
  intros Hline Hdata Hshape.
  rewrite (decode_failure_handled (Some (PyList items)) raw
             (AttributeError (type_name data) "get") Hline).
  - reflexivity.
  - unfold decode_request. rewrite Hdata.
    destruct data; try reflexivity. now elim (Hshape kvs).
Qed.

End RequestFacts.

(* ------------------------------------------------------------------ *)
(** ** Further concrete runs *)

Lemma registry_keys_witness :
  exists loaded,
    load_models unit (fun _ => inr tt)
      ["algo.py"; "logreg_model_rule_spam.pkl"; "body_tfidf.pkl";
       "logreg_model_rule_insult.pkl"; "logreg_model_rule_x.txt"] []
    = inr loaded
    /\ map fst loaded = ["spam"; "insult"].
Proof.
  eexists. split; [reflexivity |].
  refine (proj1 (registry_keys_follow_listing unit (fun _ => inr tt)
                   ["algo.py"; "logreg_model_rule_spam.pkl"; "body_tfidf.pkl";
                    "logreg_model_rule_insult.pkl"; "logreg_model_rule_x.txt"]
                   _ _ eq_refl)).
  repeat constructor; simpl; intuition discriminate.
Defined.

Lemma reported_probability_witness :
  exists m, field "probability" (violation_entry (7 # 10) "spam")
            = Some (PyFloat m)
            /\ (0 <= m)%Q
            /\ (forall r p, In (r, p) [("zeta", (1 # 5)%Q); ("spam", (7 # 10)%Q);
                                       ("alpha", (7 # 10)%Q)] -> (p <= m)%Q)
            /\ (m = 0%Q
                \/ exists r, In (r, m) [("zeta", (1 # 5)%Q); ("spam", (7 # 10)%Q);
                                        ("alpha", (7 # 10)%Q)]).
Proof.
  apply (reported_probability_is_the_maximum (R := demo_runtime tied_registry)
           one_row one_row 0).
  - repeat constructor.
  - reflexivity.
Defined.

Lemma registry_order_witness :
  Qeq (7 # 10) (7 # 10) /\ status_of (7 # 10) = status_of (7 # 10).
Proof.
  apply (registry_order_is_irrelevant (R := demo_runtime tied_registry)
           one_row one_row 0 tied_registry (rev tied_registry)
           (7 # 10)%Q (Some "spam") (7 # 10)%Q (Some "alpha")).
  - intros x. apply in_rev.
  - reflexivity.
  - reflexivity.
Defined.

Lemma loop_survival_witness :
  exit (serve (R := demo_runtime spam_registry) (Some (PyList [PyStr "a"]))
          ["oops"; "  "; "{}"; "[1]"; jtext "{'comments': 'ab'}"; "}"])
  = None
  /\ List.length
       (responses
          (serve (R := demo_runtime spam_registry) (Some (PyList [PyStr "a"]))
             ["oops"; "  "; "{}"; "[1]"; jtext "{'comments': 'ab'}"; "}"]))
     = 5.
Proof.
  apply (loop_survives_while_comments_iterable
           (R := demo_runtime spam_registry) (Some (PyList [PyStr "a"]))
           ["oops"; "  "; "{}"; "[1]"; jtext "{'comments': 'ab'}"; "}"]).
  - now exists (PyList [PyStr "a"]), 1.
  - repeat constructor; intros c H; vm_compute in H;
      first [discriminate H | injection H as <-; discriminate].
Defined.

Lemma failed_batch_witness :
  printed (process_line (R := demo_runtime broken_registry) None
             (jtext "{'comments': ['a', 'b']}"))
  = Emitted (PyDict [("comments", PyList [PyStr "a"; PyStr "b"]);
                     ("results",
                      PyList (repeat
                                (PyDict [("probability", PyFloat 0);
                                         ("status", PyStr "Error");
                                         ("rule", PyStr "");
                                         ("error",
                                          PyStr "X has too few features")])
                                2))]).
Proof.
  apply (failed_batch_is_reported_whole (R := demo_runtime broken_registry)
           None (jtext "{'comments': ['a', 'b']}") [PyStr "a"; PyStr "b"]
           [FeatureExtraction (PyList [PyStr "a"; PyStr "b"]);
            BodyTransform ["a"; "b"]; NumericMatrix;
            RuleTransform ["insult"]; RowAccess 0; RowAccess 0; Stack;
            PredictProba "insult" 0;
            RuleTransform ["spam"]; RowAccess 0; RowAccess 0; Stack;
            PredictProba "spam" 0]
           (LibraryError "ValueError" "X has too few features")).
  - vm_compute. discriminate.
  - reflexivity.
  - discriminate.
  - reflexivity.
Defined.

Lemma history_witness :
  process_line (R := demo_runtime spam_registry) None spam_line
  = process_line (R := demo_runtime spam_registry) (Some (PyInt 5)) spam_line.
Proof.
  apply (decodable_line_ignores_history (R := demo_runtime spam_registry)
           None (Some (PyInt 5)) spam_line
           (PyList [PyStr "Buy now!!! http://spam.biz"])).
  - vm_compute. discriminate.
  - reflexivity.
Defined.

Lemma one_entry_witness :
  field "comments"
    (success_response (PyList [PyStr "a"; PyNone])
       [safe_entry (1 # 10); safe_entry (1 # 10)])
  = Some (PyList [PyStr "a"; PyNone])
  /\ List.length [safe_entry (1 # 10); safe_entry (1 # 10)]
     = List.length [PyStr "a"; PyNone].
Proof.
  apply (one_entry_per_comment (R := demo_runtime spam_registry) None
           (jtext "{'comments': ['a', null]}") [PyStr "a"; PyNone]
           [Some "a"; None]).
  - reflexivity.
  - reflexivity.
  - vm_compute. reflexivity.
  - reflexivity.
Defined.

Lemma response_shape_witness :
  success_response (PyList [PyStr "Buy now!!! http://spam.biz"])
    [violation_entry (9 # 10) "spam"] = empty_response
  \/ (exists c entries,
            success_response (PyList [PyStr "Buy now!!! http://spam.biz"])
              [violation_entry (9 # 10) "spam"]
            = success_response c entries
            /\ Forall (scored_entry
                         (map fst (models (Runtime := demo_runtime spam_registry))))
                      entries)
      \/ (exists c e n,
            iter_len c = Some n
            /\ success_response (PyList [PyStr "Buy now!!! http://spam.biz"])
                 [violation_entry (9 # 10) "spam"]
               = PyDict [("comments", c);
                         ("results", PyList (repeat (error_entry e) n))]).
Proof.
  apply (printed_response_shape (R := demo_runtime spam_registry) None
           spam_line).
  vm_compute. reflexivity.
Defined.

Lemma work_witness :
  process_line (R := demo_runtime spam_registry) None spam_line
  = (Emitted (success_response (PyList [PyStr "Buy now!!! http://spam.biz"])
                [violation_entry (9 # 10) "spam"]),
     Some (PyList [PyStr "Buy now!!! http://spam.biz"]),
     [FeatureExtraction (PyList [PyStr "Buy now!!! http://spam.biz"]);
      BodyTransform ["buy now!!! http://spam.biz"]; NumericMatrix;
      RuleTransform ["insult"]; RowAccess 0; RowAccess 0; Stack;
      PredictProba "insult" 0;
      RuleTransform ["spam"]; RowAccess 0; RowAccess 0; Stack;
      PredictProba "spam" 0]).
Proof.
  apply (work_of_a_scored_batch (R := demo_runtime spam_registry) None
           spam_line [PyStr "Buy now!!! http://spam.biz"]
           [Some "Buy now!!! http://spam.biz"]
           [violation_entry (9 # 10) "spam"]).
  - vm_compute. discriminate.
  - reflexivity.
  - discriminate.
  - reflexivity.
  - reflexivity.
Defined.

Lemma non_object_witness :
  process_line (R := demo_runtime spam_registry) (Some (PyList [PyStr "a"]))
    "[1, 2]"
  = (Emitted
       (PyDict [("comments", PyList [PyStr "a"]);
                ("results",
                 PyList [PyDict [("probability", PyFloat 0);
                                 ("status", PyStr "Error");
                                 ("rule", PyStr "");
                                 ("error",
                                  PyStr "'list' object has no attribute 'get'")]])]),
     Some (PyList [PyStr "a"]), []).
Proof.
  apply (non_object_request_reuses_batch (R := demo_runtime spam_registry)
           "[1, 2]" (PyList [PyInt 1; PyInt 2]) [PyStr "a"]).
  - vm_compute. discriminate.
  - reflexivity.
  - discriminate.
Defined.
